(** * ghreport: a shallow embedding of [report.go]

    The Go package [report] queries the GitHub GraphQL API for the
    repositories of an organization, fetches one report per repository and
    sorts the pull requests it finds into three buckets.  This file embeds
    the package function by function and states its properties.

    Conventions.
    - Go [int] values are [Z]; the one arithmetic operation of the package
      on them (the negation [-gr.Duration]) has its 64-bit wrap-around
      written out.
    - Go [string] values are [string]; a nil slice and an empty slice are
      both the empty [list].
    - A Go function returning [(v, err)] returns a pair whose second
      component is [None] for a nil error.
    - The remote endpoint, the clock with the time zone of the process, and
      the caller's logging callback are the environment: see [Env] and
      [World]. *)

From Stdlib Require Import ZArith Ascii String.
From stdpp Require Import list strings gmap pretty sorting.

Local Open Scope Z_scope.

(** The newline character of the Go format strings. *)
Definition nl : string := String "010"%char EmptyString.

(** ** The [time] package

    [report.go] uses five operations of Go's standard [time] package.
    [time.Parse] with the layout [ISO_FORM] and [Time.After] do not depend
    on where the program runs and are modelled here.  [time.Now],
    [Time.AddDate] and [Time.Format] depend on the clock and the time zone
    of the process (and [AddDate] on the arithmetic of the Go release for
    extreme day counts): they are fields of the environment [Env].  A
    [Time] is an instant; it is represented by the number of nanoseconds
    since January 1, year 1, 00:00:00 UTC, which is Go's zero [Time] (the
    value [time.Parse] returns with an error). *)
Module time.

Definition Time := Z.

(** [time.Time{}] *)
Definition zero : Time := 0.

(** [t.After(u)]: [t] is strictly later than [u]. *)
Definition After (t u : Time) : bool := bool_decide (u < t).

Definition nanosPerDay : Z := 86400 * 1000000000.

(** The fields read by the layout, after their range checks. *)
Record Civil := {
  year : Z; month : Z; day : Z;
  hour : Z; minute : Z; second : Z; nanosecond : Z
}.

Definition isLeap (y : Z) : bool :=
  (y mod 4 =? 0) && (negb (y mod 100 =? 0) || (y mod 400 =? 0)).

Definition daysBefore (m : Z) : Z :=
  nth (Z.to_nat (m - 1))
      [0; 31; 59; 90; 120; 151; 181; 212; 243; 273; 304; 334] 0.

Definition daysIn (m y : Z) : Z :=
  if (m =? 2) && isLeap y then 29
  else nth (Z.to_nat (m - 1)) [31; 28; 31; 30; 31; 30; 31; 31; 30; 31; 30; 31] 0.

(** Days from January 1, year 1 to January 1 of year [y]. *)
Definition daysSinceEpoch (y : Z) : Z :=
  365 * (y - 1) + (y - 1) / 4 - (y - 1) / 100 + (y - 1) / 400.

(** [time.Date(year, month, day, hour, min, sec, nsec, time.UTC)] on
    fields that are in range. *)
Definition Date (c : Civil) : Time :=
  let d := daysSinceEpoch (year c) + daysBefore (month c)
           + (if (2 <? month c) && isLeap (year c) then 1 else 0)
           + (day c - 1) in
  (d * 86400 + hour c * 3600 + minute c * 60 + second c) * 1000000000
  + nanosecond c.

Definition digit (c : ascii) : option Z :=
  let n := Z.of_N (N_of_ascii c) in
  if (48 <=? n) && (n <=? 57) then Some (n - 48) else None.

(** [getnum(s, fixed)]: one or two digits, exactly two when [fixed]. *)
Definition getnum (s : string) (fixed : bool) : option (Z * string) :=
  match s with
  | String c0 s1 =>
      match digit c0 with
      | None => None
      | Some d0 =>
          match s1 with
          | String c1 s2 =>
              match digit c1 with
              | Some d1 => Some (d0 * 10 + d1, s2)
              | None => if fixed then None else Some (d0, s1)
              end
          | EmptyString => if fixed then None else Some (d0, s1)
          end
      end
  | EmptyString => None
  end.

(** The [stdLongYear] chunk: exactly four digits. *)
Definition getyear (s : string) : option (Z * string) :=
  match s with
  | String a (String b (String c (String d rest))) =>
      match digit a, digit b, digit c, digit d with
      | Some x, Some y, Some z, Some w =>
          Some (((x * 10 + y) * 10 + z) * 10 + w, rest)
      | _, _, _, _ => None
      end
  | _ => None
  end.

(** [skip(value, prefix)] for a one-character literal of the layout. *)
Definition skip (value : string) (c : ascii) : option string :=
  match value with
  | String c' rest => if bool_decide (c' = c) then Some rest else None
  | EmptyString => None
  end.

Fixpoint span_digits (s : string) : list Z * string :=
  match s with
  | String c rest =>
      match digit c with
      | Some d => let '(ds, rest') := span_digits rest in (d :: ds, rest')
      | None => ([], s)
      end
  | EmptyString => ([], s)
  end.

Definition atoi_digits (ds : list Z) : Z :=
  fold_left (fun acc d => acc * 10 + d) ds 0.

(** A fractional second in the input that the layout does not announce:
    a period or comma followed by at least one digit.  All the digits are
    consumed, the first nine make the nanoseconds ([parseNanoseconds]). *)
Definition getfrac (value : string) : Z * string :=
  match value with
  | String sep rest =>
      if bool_decide (sep = "."%char) || bool_decide (sep = ","%char) then
        match span_digits rest with
        | ([], _) => (0, value)
        | (ds, rest') =>
            let ds9 := take 9 ds in
            (atoi_digits ds9 * 10 ^ (9 - Z.of_nat (length ds9)), rest')
        end
      else (0, value)
  | EmptyString => (0, value)
  end.

Definition guard (b : bool) : option unit := if b then Some tt else None.

(** The fields [time.Parse(ISO_FORM, value)] reads, chunk by chunk:
    [2006] [-] [01] [-] [02] [T] [15] [:] [04] [:] [05] and the literal
    [Z], with nothing left over; [None] is any parse error. *)
Definition parse_fields (value : string) : option Civil :=
  '(y, v) ← getyear value;
  v ← skip v "-"%char;
  '(mo, v) ← getnum v true;
  _ ← guard ((1 <=? mo) && (mo <=? 12));
  v ← skip v "-"%char;
  '(d, v) ← getnum v true;
  v ← skip v "T"%char;
  '(h, v) ← getnum v false;
  _ ← guard (h <? 24);
  v ← skip v ":"%char;
  '(mi, v) ← getnum v true;
  _ ← guard (mi <? 60);
  v ← skip v ":"%char;
  '(s, v) ← getnum v true;
  _ ← guard (s <? 60);
  let '(ns, v) := getfrac v in
  v ← skip v "Z"%char;
  _ ← guard (bool_decide (v = EmptyString));
  _ ← guard ((1 <=? d) && (d <=? daysIn mo y));
  Some {| year := y; month := mo; day := d;
          hour := h; minute := mi; second := s; nanosecond := ns |}.

(** [time.Parse(ISO_FORM, value)]: the instant and a nil error, or the
    zero [Time] and an error. *)
Definition Parse_ISO_FORM (value : string) : Time * option string :=
  match parse_fields value with
  | Some c => (Date c, None)
  | None => (zero, Some ("parsing time " +:+ value))
  end.

End time.

(** ** The data model of [report.go] *)

(** [PageInfoStruct]: the pagination block of the GitHub GraphQL API. *)
Record PageInfoStruct := {
  HasNextPage : bool;
  StartCursor : string;
  EndCursor : string;
  HasPreviousPage : bool
}.

(** [RateLimitStruct] *)
Record RateLimitStruct := {
  Limit : Z;
  Cost : Z;
  Remaining : Z;
  ResetAt : string
}.

(** [UserStruct] *)
Record UserStruct := { Login : string }.

(** The anonymous struct of the field [PRStruct.Participants]. *)
Record ParticipantsStruct := {
  Participants_Nodes : list UserStruct;
  Participants_PageInfo : PageInfoStruct;
  Participants_TotalCount : Z
}.

(** The anonymous struct of the field [PRStruct.Timeline]. *)
Record TimelineStruct := { TotalCount : Z }.

(** [PRStruct] *)
Record PRStruct := {
  Number : Z;
  Title : string;
  Repository : string;
  CreatedAt : string;
  MergedAt : string;
  State : string;
  Participants : ParticipantsStruct;
  Timeline : TimelineStruct
}.

(** The assignment [pullrequest.Repository = repoName] on a copy. *)
Definition set_Repository (repoName : string) (p : PRStruct) : PRStruct :=
  {| Number := Number p; Title := Title p; Repository := repoName;
     CreatedAt := CreatedAt p; MergedAt := MergedAt p; State := State p;
     Participants := Participants p; Timeline := Timeline p |}.

(** [repositoriesResponseStruct] and its anonymous structs. *)
Record RepositoryNode := { Name : string; Owner : UserStruct }.

Record RepositoriesStruct := {
  Repositories_Nodes : list RepositoryNode;
  Repositories_PageInfo : PageInfoStruct;
  Repositories_TotalCount : Z
}.

Record OrganizationStruct := { Repositories : RepositoriesStruct }.

Record repositoriesResponseStruct := {
  resp_Organization : OrganizationStruct;
  resp_RateLimit : RateLimitStruct
}.

(** [reportResponseStruct] and its anonymous structs. *)
Record PullRequestsStruct := {
  Nodes : list PRStruct;
  PageInfo : PageInfoStruct;
  PR_TotalCount : Z
}.

Record CommitStruct := {
  Oid : string;
  CommittedDate : string;
  Author : UserStruct;
  Message : string
}.

Record HistoryStruct := {
  History_Nodes : list CommitStruct;
  History_PageInfo : PageInfoStruct;
  History_TotalCount : Z
}.

Record TargetStruct := { History : HistoryStruct }.

Record RefNode := { Ref_Name : string; Target : TargetStruct }.

Record RefsStruct := {
  Refs_Nodes : list RefNode;
  Refs_PageInfo : PageInfoStruct;
  Refs_TotalCount : Z
}.

Record RepositoryStruct := {
  Repository_Name : string;
  MergedPR : PullRequestsStruct;
  OpenPR : PullRequestsStruct;
  Refs : RefsStruct
}.

Record reportResponseStruct := {
  report_Repository : RepositoryStruct;
  report_RateLimit : RateLimitStruct
}.

(** The anonymous struct of the field [ActivityReport.Result]. *)
Record ResultStruct := {
  MergedPRs : list PRStruct;
  OpenPRsWithActivity : list PRStruct;
  OpenPRsWithoutActivity : list PRStruct
}.

(** [ActivityReport].  The field [Log] is a Go function value: [None] is
    the nil function, [Some f] a callback whose effect on the caller's sink
    (the lines written so far) is [f]. *)
Record ActivityReport := {
  Organization : string;
  Duration : Z;
  ReportDate : time.Time;
  Result : ResultStruct;
  Log : option (string -> list string -> list string);
  gitHubToken : string
}.

(** [NewActivityReport]: the fields the composite literal does not name
    have their zero value. *)
Definition NewActivityReport (org token : string) (duration : Z) : ActivityReport :=
  {| Organization := org;
     Duration := duration;
     ReportDate := time.zero;
     Result := {| MergedPRs := []; OpenPRsWithActivity := [];
                  OpenPRsWithoutActivity := [] |};
     Log := None;
     gitHubToken := token |}.

(** The caller's assignment [report.Log = f]. *)
Definition set_Log (f : string -> list string -> list string)
    (gr : ActivityReport) : ActivityReport :=
  {| Organization := Organization gr; Duration := Duration gr;
     ReportDate := ReportDate gr; Result := Result gr;
     Log := Some f; gitHubToken := gitHubToken gr |}.

Definition set_ReportDate (t : time.Time) (gr : ActivityReport) : ActivityReport :=
  {| Organization := Organization gr; Duration := Duration gr;
     ReportDate := t; Result := Result gr;
     Log := Log gr; gitHubToken := gitHubToken gr |}.

Definition set_Result (r : ResultStruct) (gr : ActivityReport) : ActivityReport :=
  {| Organization := Organization gr; Duration := Duration gr;
     ReportDate := ReportDate gr; Result := r;
     Log := Log gr; gitHubToken := gitHubToken gr |}.

(** ** The GraphQL client

    A request is a query text and its variables ([req.Var(key, value)]
    stores into a Go map).  The four query texts of the package are told
    apart by the [repositories]/[repository] selection they make. *)
Inductive Query :=
| repositories_first_owner  (* repositories(first:$size, affiliations:OWNER) *)
| repositories_first_after  (* repositories(first:$size, after:$cursor) *)
| repositories_last_owner   (* repositories(last:$size, affiliations:OWNER) *)
| repository_report.        (* repository(owner:$organization, name:$repo) *)

Inductive Value :=
| VString (s : string)
| VInt (n : Z).

Record Request := { q : Query; vars : gmap string Value }.

Definition NewRequest (query : Query) : Request := {| q := query; vars := ∅ |}.

Definition Var (key : string) (value : Value) (req : Request) : Request :=
  {| q := q req; vars := <[key := value]> (vars req) |}.

(** The value of a string or integer variable of a request (the zero
    value when it is not set). *)
Definition string_var (req : Request) (key : string) : string :=
  match vars req !! key with Some (VString s) => s | _ => "" end.

Definition int_var (req : Request) (key : string) : Z :=
  match vars req !! key with Some (VInt n) => n | _ => 0 end.

(** What [client.Run] brought back: the decoded response and the error. *)
Inductive Reply :=
| repositoriesReply (respData : repositoriesResponseStruct) (err : option string)
| reportReply (respData : reportResponseStruct) (err : option string).

Record Exchange := { sent : Request; received : Reply }.

(** The environment of a run: how the endpoint answers a request, given
    everything exchanged so far; what the clock shows ([time.Now()]);
    and, for the zone of the process, [t.AddDate(0, 0, days)] and
    [t.Format(ISO_FORM)]. *)
Record Env := {
  run_repositories :
    list Exchange -> Request -> repositoriesResponseStruct * option string;
  run_report :
    list Exchange -> Request -> reportResponseStruct * option string;
  Now : list Exchange -> time.Time;
  AddDate : time.Time -> Z -> time.Time;
  Format : time.Time -> string
}.

(** The mutable state: the [ActivityReport] behind the receiver [gr], the
    exchanges with the endpoint so far, and the caller's log sink. *)
Record World := {
  gr : ActivityReport;
  wire : list Exchange;
  sink : list string
}.

Definition with_gr (f : ActivityReport -> ActivityReport) (w : World) : World :=
  {| gr := f (gr w); wire := wire w; sink := sink w |}.

Definition with_wire (f : list Exchange -> list Exchange) (w : World) : World :=
  {| gr := gr w; wire := f (wire w); sink := sink w |}.

Definition with_sink (f : list string -> list string) (w : World) : World :=
  {| gr := gr w; wire := wire w; sink := f (sink w) |}.

(** How a call ends: it returns, it panics, or (for the recursion of
    [listRepositories] only) the recursion budget of the model ran out. *)
Inductive Outcome (A : Type) :=
| Returned (a : A) (w : World)
| Panicked (w : World)
| Exhausted.
Arguments Returned {A} a w.
Arguments Panicked {A} w.
Arguments Exhausted {A}.

Definition M (A : Type) : Type := World -> Outcome A.

Definition ret {A} (a : A) : M A := fun w => Returned a w.

Definition bind {A B} (m : M A) (k : A -> M B) : M B :=
  fun w =>
    match m w with
    | Returned a w' => k a w'
    | Panicked w' => Panicked w'
    | Exhausted => Exhausted
    end.

Global Instance M_ret : MRet M := @ret.
Global Instance M_bind : MBind M := fun A B k m => bind m k.

Definition read {A} (f : World -> A) : M A := fun w => Returned (f w) w.
Definition update (f : World -> World) : M unit := fun w => Returned tt (f w).

(** [gr.logf(format, args...)], the formatted text given: it calls the
    function value [gr.Log]; calling a nil function value panics. *)
Definition logf (text : string) : M unit :=
  fun w =>
    match Log (gr w) with
    | Some f => Returned tt (with_sink (f text) w)
    | None => Panicked w
    end.

(** [client.Run(ctx, req, &respData)] at the two response types. *)
Definition client_Run_repositories (E : Env) (req : Request)
  : M (repositoriesResponseStruct * option string) :=
  fun w =>
    let '(respData, err) := run_repositories E (wire w) req in
    Returned (respData, err)
      (with_wire (fun t => t ++ [{| sent := req;
                                    received := repositoriesReply respData err |}]) w).

Definition client_Run_report (E : Env) (req : Request)
  : M (reportResponseStruct * option string) :=
  fun w =>
    let '(respData, err) := run_report E (wire w) req in
    Returned (respData, err)
      (with_wire (fun t => t ++ [{| sent := req;
                                    received := reportReply respData err |}]) w).

(** ** The functions of [report.go] *)

(** [type ByActivity []PRStruct] and [type ByAge []PRStruct] with their
    [sort.Interface] methods.  An index expression outside the slice
    panics: the methods return [None] there. *)
Definition index (a : list PRStruct) (i : Z) : option PRStruct :=
  if i <? 0 then None else a !! Z.to_nat i.

Definition Len (a : list PRStruct) : Z := Z.of_nat (length a).

(** [a[i], a[j] = a[j], a[i]] *)
Definition Swap (a : list PRStruct) (i j : Z) : option (list PRStruct) :=
  x ← index a i;
  y ← index a j;
  Some (<[Z.to_nat j := x]> (<[Z.to_nat i := y]> a)).

Module ByActivity.
Definition Len := Len.
Definition Swap := Swap.
Definition Less (a : list PRStruct) (i j : Z) : option bool :=
  x ← index a i;
  y ← index a j;
  Some (bool_decide (TotalCount (Timeline x) > TotalCount (Timeline y))).
End ByActivity.

Module ByAge.
Definition Len := Len.
Definition Swap := Swap.
Definition Less (a : list PRStruct) (i j : Z) : option bool :=
  x ← index a i;
  y ← index a j;
  let '(ti, _) := time.Parse_ISO_FORM (CreatedAt x) in
  let '(tj, _) := time.Parse_ISO_FORM (CreatedAt y) in
  Some (time.After tj ti).
End ByAge.

(** The loop [for _, repo := range ...Nodes { repositories =
    append(repositories, repo.Name) }]. *)
Definition append_names (repositories : list string) (nodes : list RepositoryNode)
  : list string :=
  fold_left (fun repositories repo => repositories ++ [Name repo]) nodes repositories.

Definition credits (remaining : Z) : string :=
  "Credits remaining " +:+ pretty remaining +:+ nl.

(** The request of [listRepositories]. *)
Definition listRepositories_request (organization cursor : string) : Request :=
  let req :=
    if bool_decide (cursor = "") then NewRequest repositories_first_owner
    else Var "cursor" (VString cursor) (NewRequest repositories_first_after) in
  Var "size" (VInt 50) (Var "organization" (VString organization) req).

(** [listRepositories]: the recursion follows the pages of the endpoint,
    which need not end; [fuel] bounds its depth in the model. *)
Fixpoint listRepositories (E : Env) (fuel : nat) (organization cursor : string)
  : M (list string * option string) :=
  match fuel with
  | O => fun _ => Exhausted
  | S fuel =>
      '(respData, err) ← client_Run_repositories E
                           (listRepositories_request organization cursor);
      match err with
      | Some e => mret ([], Some e)
      | None =>
          let page := Repositories (resp_Organization respData) in
          let repositories := append_names [] (Repositories_Nodes page) in
          if HasNextPage (Repositories_PageInfo page) then
            '(additionalRepos, err) ←
              listRepositories E fuel organization
                (EndCursor (Repositories_PageInfo page));
            match err with
            | Some e => mret ([], Some e)
            | None =>
                logf (credits (Remaining (resp_RateLimit respData)));;
                mret (repositories ++ additionalRepos, None)
            end
          else
            logf (credits (Remaining (resp_RateLimit respData)));;
            mret (repositories, None)
      end
  end.

(** The request of [listSubsetRepositories]. *)
Definition listSubsetRepositories_request (organization cursor : string) : Request :=
  let req :=
    if bool_decide (cursor = "") then NewRequest repositories_last_owner
    else Var "cursor" (VString cursor) (NewRequest repositories_first_after) in
  Var "size" (VInt 10) (Var "organization" (VString organization) req).

(** [listSubsetRepositories] *)
Definition listSubsetRepositories (E : Env) (organization cursor : string)
  : M (list string * option string) :=
  '(respData, err) ← client_Run_repositories E
                       (listSubsetRepositories_request organization cursor);
  match err with
  | Some e => mret ([], Some e)
  | None =>
      let page := Repositories (resp_Organization respData) in
      let repositories := append_names [] (Repositories_Nodes page) in
      logf (credits (Remaining (resp_RateLimit respData)));;
      mret (repositories, None)
  end.

(** The request of [reportRepository]. *)
Definition reportRepository_request (E : Env) (organization repository : string)
    (since : time.Time) : Request :=
  Var "size" (VInt 50)
    (Var "date2" (VString (Format E since))
      (Var "date" (VString (Format E since))
        (Var "repo" (VString repository)
          (Var "organization" (VString organization)
            (NewRequest repository_report))))).

(** [reportRepository]: on an error the response is returned as the client
    left it, together with the error. *)
Definition reportRepository (E : Env) (organization repository : string)
    (since : time.Time) : M (reportResponseStruct * option string) :=
  '(respData, err) ← client_Run_report E
                       (reportRepository_request E organization repository since);
  match err with
  | Some e => mret (respData, Some e)
  | None =>
      logf (credits (Remaining (report_RateLimit respData)));;
      mret (respData, None)
  end.

Definition append_MergedPRs (p : PRStruct) (r : ResultStruct) : ResultStruct :=
  {| MergedPRs := MergedPRs r ++ [p];
     OpenPRsWithActivity := OpenPRsWithActivity r;
     OpenPRsWithoutActivity := OpenPRsWithoutActivity r |}.

Definition append_OpenPRsWithActivity (p : PRStruct) (r : ResultStruct) : ResultStruct :=
  {| MergedPRs := MergedPRs r;
     OpenPRsWithActivity := OpenPRsWithActivity r ++ [p];
     OpenPRsWithoutActivity := OpenPRsWithoutActivity r |}.

Definition append_OpenPRsWithoutActivity (p : PRStruct) (r : ResultStruct) : ResultStruct :=
  {| MergedPRs := MergedPRs r;
     OpenPRsWithActivity := OpenPRsWithActivity r;
     OpenPRsWithoutActivity := OpenPRsWithoutActivity r ++ [p] |}.

Definition on_Result (f : ResultStruct -> ResultStruct) : M unit :=
  update (with_gr (fun g => set_Result (f (Result g)) g)).

(** The loop over [report.Repository.MergedPR.Nodes] in [Run]. *)
Fixpoint extract_merged (repoName : string) (since : time.Time)
    (nodes : list PRStruct) : M unit :=
  match nodes with
  | [] => mret tt
  | pullrequest :: nodes =>
      let '(t, _) := time.Parse_ISO_FORM (MergedAt pullrequest) in
      (if time.After t since then
         let pullrequest := set_Repository repoName pullrequest in
         on_Result (append_MergedPRs pullrequest)
       else mret tt);;
      extract_merged repoName since nodes
  end.

(** The loop over [report.Repository.OpenPR.Nodes] in [Run]. *)
Fixpoint extract_open (repoName : string) (nodes : list PRStruct) : M unit :=
  match nodes with
  | [] => mret tt
  | pullrequest :: nodes =>
      let pullrequest := set_Repository repoName pullrequest in
      (if bool_decide (TotalCount (Timeline pullrequest) > 0) then
         on_Result (append_OpenPRsWithActivity pullrequest)
       else
         on_Result (append_OpenPRsWithoutActivity pullrequest));;
      extract_open repoName nodes
  end.

Definition listing_error (err : string) : string :=
  "An error occured during repositories listing " +:+ err +:+ nl.

Definition report_error (repoName err : string) : string :=
  "An error occured during report for " +:+ repoName +:+ ": " +:+ err +:+ nl.

(** The loop over [repositories] in [Run]; [Some e] is the [return] of an
    error from inside the loop, [None] the end of the loop. *)
Fixpoint for_repositories (E : Env) (since : time.Time)
    (repositories : list string) : M (option string) :=
  match repositories with
  | [] => mret None
  | repoName :: repositories =>
      organization ← read (fun w => Organization (gr w));
      '(report, err2) ← reportRepository E organization repoName since;
      match err2 with
      | Some e => mret (Some (report_error repoName e))
      | None =>
          extract_merged repoName since (Nodes (MergedPR (report_Repository report)));;
          extract_open repoName (Nodes (OpenPR (report_Repository report)));;
          for_repositories E since repositories
      end
  end.

(** Negation of a 64-bit Go [int]. *)
Definition neg_int (n : Z) : Z := (- n + 2 ^ 63) mod 2 ^ 64 - 2 ^ 63.

Definition count (l : list PRStruct) : string := pretty (Len l).

(** [Run]: [None] is the nil error. *)
Definition Run (E : Env) : M (option string) :=
  now ← read (fun w => Now E (wire w));
  duration ← read (fun w => Duration (gr w));
  let since := AddDate E now (neg_int duration) in
  update (with_gr (set_ReportDate now));;
  organization ← read (fun w => Organization (gr w));
  '(repositories, err) ← listSubsetRepositories E organization "";
  match err with
  | Some e => mret (Some (listing_error e))
  | None =>
      err2 ← for_repositories E since repositories;
      match err2 with
      | Some e => mret (Some e)
      | None =>
          merged ← read (fun w => MergedPRs (Result (gr w)));
          logf ("Nb merged pr:" +:+ count merged +:+ nl);;
          active ← read (fun w => OpenPRsWithActivity (Result (gr w)));
          logf ("Nb open pr with activity:" +:+ count active +:+ nl);;
          inactive ← read (fun w => OpenPRsWithoutActivity (Result (gr w)));
          logf ("Nb open pr without activity:" +:+ count inactive +:+ nl);;
          mret None
      end
  end.

(** ** A reference endpoint

    A stateless endpoint serving one fixed organization, used to run the
    functions above on concrete data.  It answers the repository queries
    with pages of at most [min size cap] names ([cap] is the endpoint's own
    page limit), the cursor of a page being the last name on it, and the
    report query with the pull requests recorded for the repository; a
    repository recorded without data makes the call fail. *)
Module Sim.

Definition noPageInfo : PageInfoStruct :=
  {| HasNextPage := false; StartCursor := ""; EndCursor := "";
     HasPreviousPage := false |}.

Definition rate : RateLimitStruct :=
  {| Limit := 5000; Cost := 1; Remaining := 4999; ResetAt := "" |}.

Definition noRepositories : repositoriesResponseStruct :=
  {| resp_Organization :=
       {| Repositories := {| Repositories_Nodes := [];
                             Repositories_PageInfo := noPageInfo;
                             Repositories_TotalCount := 0 |} |};
     resp_RateLimit := {| Limit := 0; Cost := 0; Remaining := 0; ResetAt := "" |} |}.

Definition pulls (l : list PRStruct) : PullRequestsStruct :=
  {| Nodes := l; PageInfo := noPageInfo; PR_TotalCount := Z.of_nat (length l) |}.

Definition noRefs : RefsStruct :=
  {| Refs_Nodes := []; Refs_PageInfo := noPageInfo; Refs_TotalCount := 0 |}.

Definition noReport : reportResponseStruct :=
  {| report_Repository := {| Repository_Name := ""; MergedPR := pulls [];
                             OpenPR := pulls []; Refs := noRefs |};
     report_RateLimit := {| Limit := 0; Cost := 0; Remaining := 0; ResetAt := "" |} |}.

(** A repository: its name and, unless fetching it fails, its merged and
    its open pull requests. *)
Definition Repo : Type := string * option (list PRStruct * list PRStruct).

Definition page (owner : string) (total : nat) (names : list string) (more : bool)
  : repositoriesResponseStruct :=
  {| resp_Organization :=
       {| Repositories :=
            {| Repositories_Nodes :=
                 (fun n => {| Name := n; Owner := {| Login := owner |} |}) <$> names;
               Repositories_PageInfo :=
                 {| HasNextPage := more; StartCursor := default "" (head names);
                    EndCursor := default "" (last names);
                    HasPreviousPage := false |};
               Repositories_TotalCount := Z.of_nat total |} |};
     resp_RateLimit := rate |}.

Fixpoint after (cursor : string) (names : list string) : list string :=
  match names with
  | [] => []
  | n :: names => if bool_decide (n = cursor) then names else after cursor names
  end.

Definition repositories (cap : nat) (repos : list Repo) (req : Request)
  : repositoriesResponseStruct * option string :=
  let names := fst <$> repos in
  let size := Nat.min (Z.to_nat (int_var req "size")) cap in
  let owner := string_var req "organization" in
  match q req with
  | repositories_first_owner =>
      (page owner (length names) (take size names)
            (bool_decide (size < length names)%nat), None)
  | repositories_first_after =>
      let rest := after (string_var req "cursor") names in
      (page owner (length names) (take size rest)
            (bool_decide (size < length rest)%nat), None)
  | repositories_last_owner =>
      (page owner (length names) (drop (length names - size) names) false, None)
  | repository_report => (noRepositories, Some "unexpected query")
  end.

Fixpoint find (name : string) (repos : list Repo)
  : option (option (list PRStruct * list PRStruct)) :=
  match repos with
  | [] => None
  | (n, data) :: repos => if bool_decide (n = name) then Some data else find name repos
  end.

Definition report (repos : list Repo) (req : Request)
  : reportResponseStruct * option string :=
  match find (string_var req "repo") repos with
  | Some (Some (merged, opened)) =>
      ({| report_Repository :=
            {| Repository_Name := string_var req "repo";
               MergedPR := pulls merged; OpenPR := pulls opened; Refs := noRefs |};
          report_RateLimit := rate |}, None)
  | Some None => (noReport, Some "graphql: server error")
  | None => (noReport, Some "graphql: Could not resolve to a Repository")
  end.

(** [t.AddDate(0, 0, days)] of the reference process: its zone is UTC,
    where a calendar day is 86400 seconds, and the day counts of the
    samples are far from the range where Go's arithmetic wraps. *)
Definition utc_AddDate (t : time.Time) (days : Z) : time.Time :=
  t + days * time.nanosPerDay.

(** [appendInt(b, x, width)]: decimal, zero-padded to [width] digits,
    with a leading minus sign for a negative number. *)
Definition appendInt (x : Z) (width : nat) : string :=
  let ds := pretty (Z.abs x) in
  let pad := String.concat "" (replicate (width - String.length ds)%nat "0") in
  (if x <? 0 then "-" else "") +:+ pad +:+ ds.

(** The civil date of a day count since January 1, year 1. *)
Definition civil_of_days (z : Z) : Z * Z * Z :=
  let z := z + 306 in
  let era := z / 146097 in
  let doe := z mod 146097 in
  let yoe := (doe - doe / 1460 + doe / 36524 - doe / 146096) / 365 in
  let doy := doe - (365 * yoe + yoe / 4 - yoe / 100) in
  let mp := (5 * doy + 2) / 153 in
  let d := doy - (153 * mp + 2) / 5 + 1 in
  let m := if mp <? 10 then mp + 3 else mp - 9 in
  let y := yoe + era * 400 + (if m <=? 2 then 1 else 0) in
  (y, m, d).

(** [t.Format(ISO_FORM)] of the reference process, whose zone is UTC; the
    layout has no fractional second, so the nanoseconds are not printed. *)
Definition utc_Format (t : time.Time) : string :=
  let secs := t / 1000000000 in
  let '(y, m, d) := civil_of_days (secs / 86400) in
  let sod := secs mod 86400 in
  appendInt y 4 +:+ "-" +:+ appendInt m 2 +:+ "-" +:+ appendInt d 2 +:+ "T"
  +:+ appendInt (sod / 3600) 2 +:+ ":" +:+ appendInt (sod mod 3600 / 60) 2
  +:+ ":" +:+ appendInt (sod mod 60) 2 +:+ "Z".

Definition env (cap : nat) (repos : list Repo) (now : time.Time) : Env :=
  {| run_repositories := fun _ req => repositories cap repos req;
     run_report := fun _ req => report repos req;
     Now := fun _ => now;
     AddDate := utc_AddDate;
     Format := utc_Format |}.

(** A pull request as the endpoint sends it: no repository name yet. *)
Definition pr (number : Z) (state createdAt mergedAt : string) (events : Z) : PRStruct :=
  {| Number := number; Title := ""; Repository := "";
     CreatedAt := createdAt; MergedAt := mergedAt; State := state;
     Participants := {| Participants_Nodes := [];
                        Participants_PageInfo := noPageInfo;
                        Participants_TotalCount := 0 |};
     Timeline := {| TotalCount := events |} |}.

(** The caller's [report.Log = func(s string) { log.Println(s) }]. *)
Definition println (s : string) (out : list string) : list string := out ++ [s].

(** A world holding a fresh report of the organization ["acme"]. *)
Definition fresh (log : option (string -> list string -> list string))
    (duration : Z) : World :=
  let r := NewActivityReport "acme" "token" duration in
  {| gr := match log with Some f => set_Log f r | None => r end;
     wire := []; sink := [] |}.

(** 2018-03-08T00:00:00Z *)
Definition now : time.Time := Eval vm_compute in
  fst (time.Parse_ISO_FORM "2018-03-08T00:00:00Z").

(** The same endpoint, read by a process whose clock has advanced by
    [step] with every exchange since [start]. *)
Definition ticking (cap : nat) (repos : list Repo) (start step : time.Time) : Env :=
  {| run_repositories := fun _ req => repositories cap repos req;
     run_report := fun _ req => report repos req;
     Now := fun t => start + Z.of_nat (length t) * step;
     AddDate := utc_AddDate;
     Format := utc_Format |}.

(** An endpoint that is down: every call fails. *)
Definition down : Env :=
  {| run_repositories := fun _ _ => (noRepositories, Some "graphql: server error");
     run_report := fun _ _ => (noReport, Some "graphql: server error");
     Now := fun _ => now;
     AddDate := utc_AddDate;
     Format := utc_Format |}.

(** The report the endpoint sends for the repository [name]. *)
Definition report_of (repos : list Repo) (name : string) : reportResponseStruct :=
  fst (report repos (Var "repo" (VString name) (NewRequest repository_report))).

End Sim.

(** ** What a run has seen and what it keeps

    The records of a run are described from its exchanges with the
    endpoint: the pull requests of every report that came back without an
    error, stamped with the repository named in the request. *)

(** The instant [time.Parse] yields for a timestamp (the zero [Time] when
    it does not parse). *)
Definition parsed (timestamp : string) : time.Time :=
  fst (time.Parse_ISO_FORM timestamp).

(** The test of the merged loop: [t.After(since)]. *)
Definition merged_since (since : time.Time) (p : PRStruct) : Prop :=
  time.After (parsed (MergedAt p)) since.

(** The test of the open loop: [pullrequest.Timeline.TotalCount > 0]. *)
Definition active (p : PRStruct) : Prop := TotalCount (Timeline p) > 0.

(** An exchange that came back with a nil error. *)
Definition succeeded (ex : Exchange) : Prop :=
  match received ex with
  | repositoriesReply _ None | reportReply _ None => True
  | _ => False
  end.

(** The error an exchange came back with. *)
Definition failure (ex : Exchange) : option string :=
  match received ex with
  | repositoriesReply _ err | reportReply _ err => err
  end.

Definition merged_seen (tr : list Exchange) : list PRStruct :=
  ex ← tr;
  match received ex with
  | reportReply report None =>
      set_Repository (string_var (sent ex) "repo")
        <$> Nodes (MergedPR (report_Repository report))
  | _ => []
  end.

Definition open_seen (tr : list Exchange) : list PRStruct :=
  ex ← tr;
  match received ex with
  | reportReply report None =>
      set_Repository (string_var (sent ex) "repo")
        <$> Nodes (OpenPR (report_Repository report))
  | _ => []
  end.

Definition classified (since : time.Time) (tr : list Exchange) : ResultStruct :=
  {| MergedPRs := filter (merged_since since) (merged_seen tr);
     OpenPRsWithActivity := filter active (open_seen tr);
     OpenPRsWithoutActivity := filter (fun p => ¬ active p) (open_seen tr) |}.

Definition join (r1 r2 : ResultStruct) : ResultStruct :=
  {| MergedPRs := MergedPRs r1 ++ MergedPRs r2;
     OpenPRsWithActivity := OpenPRsWithActivity r1 ++ OpenPRsWithActivity r2;
     OpenPRsWithoutActivity := OpenPRsWithoutActivity r1 ++ OpenPRsWithoutActivity r2 |}.

Definition no_result : ResultStruct :=
  {| MergedPRs := []; OpenPRsWithActivity := []; OpenPRsWithoutActivity := [] |}.

Definition add_result (d : ResultStruct) (w : World) : World :=
  with_gr (fun g => set_Result (join (Result g) d) g) w.

(** The cutoff [since] of a run started in the world [w]. *)
Definition cutoff (E : Env) (w : World) : time.Time :=
  AddDate E (Now E (wire w)) (neg_int (Duration (gr w))).

Definition sent_with (req : Request) (reply : Reply) (w : World) : World :=
  with_wire (fun t => t ++ [{| sent := req; received := reply |}]) w.

(** The exchanges of a loop or run that returned [r]: all succeeded when
    [r] is the nil error; otherwise the last one failed, the others
    succeeded, and [r] reports that failure. *)
Definition aborted_at (named : Exchange -> string -> string -> Prop)
    (tr : list Exchange) (r : option string) : Prop :=
  match r with
  | None => Forall succeeded tr
  | Some e =>
      ∃ tr0 ex msg,
        tr = tr0 ++ [ex] ∧ Forall succeeded tr0 ∧ failure ex = Some msg
        ∧ named ex msg e
  end.

Definition names_repository (ex : Exchange) (msg e : string) : Prop :=
  e = report_error (string_var (sent ex) "repo") msg.

Definition names_phase (ex : Exchange) (msg e : string) : Prop :=
  match received ex with
  | repositoriesReply _ _ => e = listing_error msg
  | reportReply _ _ => e = report_error (string_var (sent ex) "repo") msg
  end.

(** The world and the value a computation ends with. *)
Definition world_of {A} (w0 : World) (o : Outcome A) : World :=
  match o with Returned _ w | Panicked w => w | Exhausted => w0 end.

Definition result_of {A} (o : Outcome A) : option A :=
  match o with Returned a _ => Some a | _ => None end.

Definition panicked {A} (o : Outcome A) : bool :=
  match o with Panicked _ => true | _ => false end.

(** ** Sample organizations *)

Module Sample.

Definition merged_recently : PRStruct :=
  Sim.pr 1 "" "2018-01-01T00:00:00Z" "2018-03-07T10:00:00Z" 0.
Definition merged_long_ago : PRStruct :=
  Sim.pr 2 "" "2018-01-01T00:00:00Z" "2018-02-07T10:00:00Z" 0.
Definition open_busy : PRStruct :=
  Sim.pr 3 "OPEN" "2018-03-01T00:00:00Z" "" 3.
Definition open_idle : PRStruct :=
  Sim.pr 4 "OPEN" "2018-02-01T00:00:00Z" "" 0.
Definition merged_in_c : PRStruct :=
  Sim.pr 1 "" "2018-03-02T00:00:00Z" "2018-03-05T00:00:00Z" 0.

(** Three repositories; fetching the second one fails. *)
Definition second_fails : list Sim.Repo :=
  [ ("a", Some ([merged_recently; merged_long_ago], [open_busy; open_idle]));
    ("b", None);
    ("c", Some ([merged_in_c], [])) ].

(** Two repositories, both answering. *)
Definition healthy : list Sim.Repo :=
  [ ("a", Some ([merged_recently; merged_long_ago], [open_busy; open_idle]));
    ("c", Some ([merged_in_c], [])) ].

(** A pull request of the merged list whose [mergedAt] is not a
    timestamp, and a repository holding it. *)
Definition merged_undated : PRStruct :=
  Sim.pr 9 "MERGED" "2018-03-01T00:00:00Z" "yesterday" 0.

Definition undated : list Sim.Repo := [ ("z", Some ([merged_undated], [])) ].

(** A pull request that comes back in the open list with another state,
    and a repository holding it. *)
Definition closed_busy : PRStruct :=
  Sim.pr 5 "CLOSED" "2018-03-01T00:00:00Z" "" 2.

Definition mislabelled : list Sim.Repo := [ ("a", Some ([], [closed_busy; open_idle])) ].

(** A report of the last 7 days whose [Log] prints. *)
Definition logging : World := Sim.fresh (Some Sim.println) 7.

(** The report of the README: [Log] is left nil. *)
Definition silent : World := Sim.fresh None 7.

End Sample.

(** An organization of twelve repositories. *)
Module Twelve.

(** Twelve repositories [r1] ... [r12], each with one pull request
    merged within the window. *)
Definition repos : list Sim.Repo :=
  (fun n : nat => ("r" +:+ pretty n, Some ([Sample.merged_recently], [])))
    <$> seq 1 12.

Definition names : list string := fst <$> repos.

End Twelve.

(** The names and the pagination block of a page of repositories. *)
Definition page_names (respData : repositoriesResponseStruct) : list string :=
  Name <$> Repositories_Nodes (Repositories (resp_Organization respData)).

Definition page_info (respData : repositoriesResponseStruct) : PageInfoStruct :=
  Repositories_PageInfo (Repositories (resp_Organization respData)).

(** The first error of a sequence of calls. *)
Definition first_error (errs : list (option string)) : option string :=
  foldr (fun err rest => match err with Some e => Some e | None => rest end)
        None errs.

(** ** Sorting with [sort.Interface]

    [report.go] gives [ByActivity] the three methods of [sort.Interface]
    and calls no sort.  Two functions of Go's [sort] package over these
    methods are modelled here: [sort.IsSorted], the reading of "sorted"
    that goes with an ordering, and the insertion sort of the package
    ([insertionSort(data, 0, data.Len())]), a sort that only swaps
    neighbours that are out of order. *)

(** [for i := n - 1; i > 0; i-- { if data.Less(i, i-1) { return false } }] *)
Fixpoint IsSorted_from (a : list PRStruct) (i : nat) : option bool :=
  match i with
  | O => Some true
  | S i' =>
      b ← ByActivity.Less a (Z.of_nat i) (Z.of_nat i');
      if b : bool then Some false else IsSorted_from a i'
  end.

Definition IsSorted (a : list PRStruct) : option bool :=
  IsSorted_from a (length a - 1).

(** [for j := i; j > 0 && data.Less(j, j-1); j-- { data.Swap(j, j-1) }] *)
Fixpoint sift (a : list PRStruct) (j : nat) : option (list PRStruct) :=
  match j with
  | O => Some a
  | S j' =>
      b ← ByActivity.Less a (Z.of_nat j) (Z.of_nat j');
      if b : bool then
        a' ← ByActivity.Swap a (Z.of_nat j) (Z.of_nat j');
        sift a' j'
      else Some a
  end.

(** [for i := 1; i < n; i++ { ... }], [todo] iterations from [i] on. *)
Fixpoint insertions (a : list PRStruct) (i todo : nat) : option (list PRStruct) :=
  match todo with
  | O => Some a
  | S todo =>
      a' ← sift a i;
      insertions a' (S i) todo
  end.

Definition insertionSort (a : list PRStruct) : option (list PRStruct) :=
  insertions a 1 (length a - 1).

Definition events (p : PRStruct) : Z := TotalCount (Timeline p).

(** The records of equal activity count are in the same order in [b] as
    in [a]. *)
Definition keeps_ties (a b : list PRStruct) : Prop :=
  ∀ k, filter (fun p => events p = k) b = filter (fun p => events p = k) a.

(** Where [sift] leaves a record [x] that enters at the end of a prefix,
    the prefix being read from its end. *)
Fixpoint ins (x : PRStruct) (racc : list PRStruct) : list PRStruct :=
  match racc with
  | [] => [x]
  | y :: r => if bool_decide (events x > events y) then y :: ins x r
              else x :: y :: r
  end.

Definition ascending (u v : PRStruct) : Prop := events u <= events v.

(** What a sort asks of [Less], read on three positions: no record is
    less than itself, [Less] never holds both ways, it is transitive, and
    so is being tied. *)
Definition strict_weak_order (less : Z -> Z -> option bool) (i j k : Z) : Prop :=
  less i i = Some false
  ∧ (less i j = Some true -> less j i = Some false)
  ∧ (less i j = Some true -> less j k = Some true -> less i k = Some true)
  ∧ (less i j = Some false -> less j i = Some false ->
     less j k = Some false -> less k j = Some false ->
     less i k = Some false ∧ less k i = Some false).

(** Goals about an ordering given by a [bool_decide] of a comparison. *)
Ltac bool_decide_order :=
  unfold strict_weak_order;
  repeat split; intros;
  repeat match goal with
         | H : Some (bool_decide _) = Some true |- _ =>
             injection H as H; apply bool_decide_eq_true in H
         | H : Some (bool_decide _) = Some false |- _ =>
             injection H as H; apply bool_decide_eq_false in H
         end;
  f_equal; first [apply bool_decide_eq_true | apply bool_decide_eq_false]; lia.

(** ** Chains of pages

    The exchanges of [listRepositories] with an endpoint that serves the
    pages [ps] one after the other, starting from [cursor]: each request
    carries the [EndCursor] of the page before. *)
Fixpoint chain (organization cursor : string)
    (ps : list repositoriesResponseStruct) : list Exchange :=
  match ps with
  | [] => []
  | p :: ps =>
      {| sent := listRepositories_request organization cursor;
         received := repositoriesReply p None |}
      :: chain organization (EndCursor (page_info p)) ps
  end.

(** The cursor after the pages [ps]. *)
Fixpoint last_cursor (cursor : string) (ps : list repositoriesResponseStruct)
  : string :=
  match ps with
  | [] => cursor
  | p :: ps => last_cursor (EndCursor (page_info p)) ps
  end.

(** The endpoint answers the requests of the chain with the pages [ps],
    without an error, and each of them announces a next page. *)
Fixpoint answered (E : Env) (organization : string) (t : list Exchange)
    (cursor : string) (ps : list repositoriesResponseStruct) : Prop :=
  match ps with
  | [] => True
  | p :: ps =>
      run_repositories E t (listRepositories_request organization cursor)
      = (p, None)
      ∧ HasNextPage (page_info p) = true
      ∧ answered E organization
          (t ++ [{| sent := listRepositories_request organization cursor;
                    received := repositoriesReply p None |}])
          (EndCursor (page_info p)) ps
  end.

(** The log lines of a list of pages, written from the last page to the
    first. *)
Definition logged_pages (f : string -> list string -> list string)
    (ps : list repositoriesResponseStruct) (out : list string) : list string :=
  foldr (fun p out => f (credits (Remaining (resp_RateLimit p))) out) out ps.

(** An endpoint whose every page of repositories announces a next page. *)
Definition endless : Env :=
  {| run_repositories := fun _ req => (Sim.page "acme" 1 ["r"] true, None);
     run_report := fun _ req => (Sim.noReport, Some "graphql: server error");
     Now := fun _ => Sim.now;
     AddDate := Sim.utc_AddDate; Format := Sim.utc_Format |}.

(** ** What a run writes to the log

    Each call that comes back without an error is followed by one line
    with the credits that remain. *)
Definition log_lines (tr : list Exchange) : list string :=
  ex ← tr;
  match received ex with
  | repositoriesReply respData None => [credits (Remaining (resp_RateLimit respData))]
  | reportReply respData None => [credits (Remaining (report_RateLimit respData))]
  | _ => []
  end.

(** The lines [lines] passed to the callback [f] one after the other. *)
Definition written (f : string -> list string -> list string)
    (lines : list string) (out : list string) : list string :=
  foldl (fun out line => f line out) out lines.

(** The three lines at the end of a successful run. *)
Definition totals (r : ResultStruct) : list string :=
  [ "Nb merged pr:" +:+ count (MergedPRs r) +:+ nl;
    "Nb open pr with activity:" +:+ count (OpenPRsWithActivity r) +:+ nl;
    "Nb open pr without activity:" +:+ count (OpenPRsWithoutActivity r) +:+ nl ].

(** ** The calls of a run, as the endpoint answers them *)

(** The exchange of the listing call of [Run]. *)
Definition listing_call (organization : string)
    (p : repositoriesResponseStruct) (err : option string) : Exchange :=
  {| sent := listSubsetRepositories_request organization "";
     received := repositoriesReply p err |}.

(** The exchange that asks for the report of the repository [name]. *)
Definition report_call (E : Env) (organization : string) (since : time.Time)
    (name : string) (report : reportResponseStruct) (err : option string)
  : Exchange :=
  {| sent := reportRepository_request E organization name since;
     received := reportReply report err |}.

(** The exchanges that bring back the reports [reps] of the repositories
    [names], one call each, in order. *)
Fixpoint report_calls (E : Env) (organization : string) (since : time.Time)
    (names : list string) (reps : list reportResponseStruct) : list Exchange :=
  match names, reps with
  | name :: names, report :: reps =>
      report_call E organization since name report None
      :: report_calls E organization since names reps
  | _, _ => []
  end.

(** The endpoint answers the report requests for [names], made one after
    the other from the history [t] on, with the reports [reps] and no
    error. *)
Fixpoint fetched (E : Env) (organization : string) (since : time.Time)
    (t : list Exchange) (names : list string)
    (reps : list reportResponseStruct) : Prop :=
  match names, reps with
  | [], [] => True
  | name :: names, report :: reps =>
      run_report E t (reportRepository_request E organization name since)
      = (report, None)
      ∧ fetched E organization since
          (t ++ [report_call E organization since name report None]) names reps
  | _, _ => False
  end.

(** The pull requests of one list ([MergedPR] or [OpenPR]) of the reports
    [reps], each stamped with the name of its repository, in the order of
    the repositories and, within a report, of the response. *)
Definition stamped (sel : RepositoryStruct -> PullRequestsStruct)
    (names : list string) (reps : list reportResponseStruct) : list PRStruct :=
  mjoin (zip_with (fun name report =>
                     set_Repository name <$> Nodes (sel (report_Repository report)))
                  names reps).

(** The records the two loops of [Run] keep of the reports [reps]. *)
Definition buckets_of (since : time.Time) (names : list string)
    (reps : list reportResponseStruct) : ResultStruct :=
  {| MergedPRs :=
       filter (fun p => time.After (parsed (MergedAt p)) since)
              (stamped MergedPR names reps);
     OpenPRsWithActivity :=
       filter (fun p => TotalCount (Timeline p) > 0) (stamped OpenPR names reps);
     OpenPRsWithoutActivity :=
       filter (fun p => ¬ TotalCount (Timeline p) > 0) (stamped OpenPR names reps) |}.

(** * Properties

    Everything below is proved of the definitions above. *)

(** ** Lemmas on the embedded functions *)

Lemma result_eq (r1 r2 : ResultStruct) :
  MergedPRs r1 = MergedPRs r2 ->
  OpenPRsWithActivity r1 = OpenPRsWithActivity r2 ->
  OpenPRsWithoutActivity r1 = OpenPRsWithoutActivity r2 ->
  r1 = r2.
Proof. destruct r1, r2; simpl; intros; subst; reflexivity. Qed.

Lemma join_assoc (r1 r2 r3 : ResultStruct) :
  join (join r1 r2) r3 = join r1 (join r2 r3).
Proof. apply result_eq; simpl; symmetry; apply app_assoc. Qed.

Lemma join_no_result_r (r : ResultStruct) : join r no_result = r.
Proof. apply result_eq; simpl; apply app_nil_r. Qed.

Lemma join_no_result_l (r : ResultStruct) : join no_result r = r.
Proof. apply result_eq; reflexivity. Qed.

Lemma join_buckets (m a i : list PRStruct) :
  join {| MergedPRs := m; OpenPRsWithActivity := []; OpenPRsWithoutActivity := [] |}
       {| MergedPRs := []; OpenPRsWithActivity := a; OpenPRsWithoutActivity := i |}
  = {| MergedPRs := m; OpenPRsWithActivity := a; OpenPRsWithoutActivity := i |}.
Proof. apply result_eq; simpl; rewrite ?app_nil_r; reflexivity. Qed.

Lemma add_no_result (w : World) : add_result no_result w = w.
Proof.
  destruct w as [g t o]. unfold add_result, with_gr; simpl.
  rewrite join_no_result_r. destruct g; reflexivity.
Qed.

Lemma add_result_twice (d1 d2 : ResultStruct) (w : World) :
  add_result d2 (add_result d1 w) = add_result (join d1 d2) w.
Proof.
  unfold add_result, with_gr, set_Result; simpl. rewrite join_assoc. reflexivity.
Qed.

Lemma append_names_spec (nodes : list RepositoryNode) (acc : list string) :
  append_names acc nodes = acc ++ (Name <$> nodes).
Proof.
  revert acc. induction nodes as [|n nodes IH]; intros acc; simpl.
  - symmetry. apply app_nil_r.
  - unfold append_names in *. simpl. rewrite IH, <- app_assoc. reflexivity.
Qed.

Lemma on_MergedPRs p w :
  on_Result (append_MergedPRs p) w =
  Returned tt (add_result {| MergedPRs := [p]; OpenPRsWithActivity := [];
                             OpenPRsWithoutActivity := [] |} w).
Proof.
  unfold on_Result, update, add_result, with_gr. do 3 f_equal.
  apply result_eq; simpl; rewrite ?app_nil_r; reflexivity.
Qed.

Lemma on_OpenPRsWithActivity p w :
  on_Result (append_OpenPRsWithActivity p) w =
  Returned tt (add_result {| MergedPRs := []; OpenPRsWithActivity := [p];
                             OpenPRsWithoutActivity := [] |} w).
Proof.
  unfold on_Result, update, add_result, with_gr. do 3 f_equal.
  apply result_eq; simpl; rewrite ?app_nil_r; reflexivity.
Qed.

Lemma on_OpenPRsWithoutActivity p w :
  on_Result (append_OpenPRsWithoutActivity p) w =
  Returned tt (add_result {| MergedPRs := []; OpenPRsWithActivity := [];
                             OpenPRsWithoutActivity := [p] |} w).
Proof.
  unfold on_Result, update, add_result, with_gr. do 3 f_equal.
  apply result_eq; simpl; rewrite ?app_nil_r; reflexivity.
Qed.

Lemma extract_merged_spec r since nodes w :
  extract_merged r since nodes w =
  Returned tt
    (add_result {| MergedPRs := filter (merged_since since) (set_Repository r <$> nodes);
                   OpenPRsWithActivity := []; OpenPRsWithoutActivity := [] |} w).
Proof.
  revert w. induction nodes as [|p nodes IH]; intros w.
  - simpl. rewrite filter_nil. fold no_result. rewrite add_no_result. reflexivity.
  - cbn [extract_merged].
    destruct (time.Parse_ISO_FORM (MergedAt p)) as [t e] eqn:Hp.
    rewrite fmap_cons, filter_cons.
    assert (Ht : t = parsed (MergedAt (set_Repository r p)))
      by (unfold parsed; simpl; rewrite Hp; reflexivity).
    unfold mbind, M_bind, bind.
    destruct (time.After t since) eqn:Ha.
    + destruct (decide (merged_since since (set_Repository r p))) as [_|H].
      2:{ exfalso. apply H. unfold merged_since. rewrite <- Ht, Ha. exact I. }
      rewrite on_MergedPRs, IH, add_result_twice. reflexivity.
    + destruct (decide (merged_since since (set_Repository r p))) as [H|_].
      1:{ exfalso. unfold merged_since in H. rewrite <- Ht, Ha in H. exact H. }
      unfold mret, M_ret, ret. apply IH.
Qed.

Lemma extract_open_spec r nodes w :
  extract_open r nodes w =
  Returned tt
    (add_result {| MergedPRs := [];
                   OpenPRsWithActivity := filter active (set_Repository r <$> nodes);
                   OpenPRsWithoutActivity :=
                     filter (fun p => ¬ active p) (set_Repository r <$> nodes) |} w).
Proof.
  revert w. induction nodes as [|p nodes IH]; intros w.
  - simpl. rewrite !filter_nil. fold no_result. rewrite add_no_result. reflexivity.
  - cbn [extract_open]. rewrite fmap_cons, !filter_cons.
    unfold mbind, M_bind, bind.
    destruct (decide (active (set_Repository r p))) as [Ha|Ha].
    + rewrite bool_decide_eq_true_2 by exact Ha.
      destruct (decide (¬ active (set_Repository r p))) as [Hn|_]; [contradiction|].
      rewrite on_OpenPRsWithActivity, IH, add_result_twice. reflexivity.
    + rewrite bool_decide_eq_false_2 by exact Ha.
      destruct (decide (¬ active (set_Repository r p))) as [_|Hn]; [|contradiction].
      rewrite on_OpenPRsWithoutActivity, IH, add_result_twice. reflexivity.
Qed.

Lemma string_var_repo E organization repository since :
  string_var (reportRepository_request E organization repository since) "repo"
  = repository.
Proof.
  unfold string_var, reportRepository_request, Var; simpl.
  rewrite !lookup_insert_ne by discriminate.
  rewrite lookup_insert_eq. reflexivity.
Qed.

Lemma reportRepository_spec E organization repository since w :
  reportRepository E organization repository since w =
  let req := reportRepository_request E organization repository since in
  let reply := run_report E (wire w) req in
  let w1 := sent_with req (reportReply reply.1 reply.2) w in
  match reply.2 with
  | Some e => Returned (reply.1, Some e) w1
  | None =>
      match Log (gr w) with
      | Some f =>
          Returned (reply.1, None)
            (with_sink (f (credits (Remaining (report_RateLimit reply.1)))) w1)
      | None => Panicked w1
      end
  end.
Proof.
  unfold reportRepository, client_Run_report, mbind, M_bind, bind; simpl.
  destruct (run_report E (wire w) _) as [respData [e|]]; simpl; [reflexivity|].
  unfold logf; simpl. destruct (Log (gr w)); reflexivity.
Qed.

Lemma listSubsetRepositories_spec E organization cursor w :
  listSubsetRepositories E organization cursor w =
  let req := listSubsetRepositories_request organization cursor in
  let reply := run_repositories E (wire w) req in
  let w1 := sent_with req (repositoriesReply reply.1 reply.2) w in
  match reply.2 with
  | Some e => Returned ([], Some e) w1
  | None =>
      match Log (gr w) with
      | Some f =>
          Returned (Name <$> Repositories_Nodes (Repositories (resp_Organization reply.1)),
                    None)
            (with_sink (f (credits (Remaining (resp_RateLimit reply.1)))) w1)
      | None => Panicked w1
      end
  end.
Proof.
  unfold listSubsetRepositories, client_Run_repositories, mbind, M_bind, bind; simpl.
  destruct (run_repositories E (wire w) _) as [respData [e|]]; simpl; [reflexivity|].
  unfold logf; simpl. rewrite append_names_spec.
  destruct (Log (gr w)); reflexivity.
Qed.

Lemma classified_app since (t1 t2 : list Exchange) :
  classified since (t1 ++ t2) = join (classified since t1) (classified since t2).
Proof.
  unfold classified, merged_seen, open_seen.
  apply result_eq; simpl; rewrite bind_app, filter_app; reflexivity.
Qed.

Lemma classified_nil since : classified since [] = no_result.
Proof. reflexivity. Qed.

Lemma classified_failed since (ex : Exchange) :
  ¬ succeeded ex -> classified since [ex] = no_result.
Proof.
  unfold classified, merged_seen, open_seen, succeeded.
  rewrite !bind_singleton.
  destruct (received ex) as [resp [e|]|resp [e|]]; try reflexivity; tauto.
Qed.

Lemma classified_listing since req resp err :
  classified since [{| sent := req; received := repositoriesReply resp err |}]
  = no_result.
Proof. reflexivity. Qed.

Lemma classified_report E since organization repository report :
  classified since
    [{| sent := reportRepository_request E organization repository since;
        received := reportReply report None |}]
  = {| MergedPRs :=
         filter (merged_since since)
           (set_Repository repository <$> Nodes (MergedPR (report_Repository report)));
       OpenPRsWithActivity :=
         filter active
           (set_Repository repository <$> Nodes (OpenPR (report_Repository report)));
       OpenPRsWithoutActivity :=
         filter (fun p => ¬ active p)
           (set_Repository repository <$> Nodes (OpenPR (report_Repository report))) |}.
Proof.
  unfold classified, merged_seen, open_seen.
  apply result_eq; cbn [MergedPRs OpenPRsWithActivity OpenPRsWithoutActivity];
    rewrite bind_singleton; cbn [received sent];
    rewrite string_var_repo; reflexivity.
Qed.

Lemma for_repositories_returned E since repositories :
  ∀ w r w',
    for_repositories E since repositories w = Returned r w' ->
    ∃ tr,
      wire w' = wire w ++ tr
      ∧ gr w' = set_Result (join (Result (gr w)) (classified since tr)) (gr w)
      ∧ aborted_at names_repository tr r
      ∧ (∀ ex, ex ∈ tr -> ∃ resp err, received ex = reportReply resp err).
Proof.
  induction repositories as [|repoName repositories IH]; intros w r w' Hrun.
  - inversion Hrun; subst. exists []. rewrite app_nil_r, classified_nil, join_no_result_r.
    split; [reflexivity|]. split; [destruct (gr w'); reflexivity|].
    split; [constructor|]. intros ex Hex. inversion Hex.
  - cbn [for_repositories] in Hrun.
    unfold mbind, M_bind, bind, read in Hrun.
    rewrite reportRepository_spec in Hrun. cbv zeta in Hrun.
    destruct (run_report E (wire w) _) as [report [e|]] eqn:Hreply; simpl in Hrun.
    + inversion Hrun; subst; clear Hrun.
      eexists [_]. split; [reflexivity|].
      rewrite classified_failed, join_no_result_r by (unfold succeeded; simpl; tauto).
      split; [simpl; destruct (gr w); reflexivity|].
      split.
      * exists [], {| sent := reportRepository_request E (Organization (gr w)) repoName since;
                      received := reportReply report (Some e) |}, e.
        split; [reflexivity|]. split; [constructor|]. split; [reflexivity|].
        unfold names_repository; simpl. rewrite string_var_repo. reflexivity.
      * intros ex Hex. apply list_elem_of_singleton in Hex. subst. simpl. eauto.
    + destruct (Log (gr w)) as [f|] eqn:Hlog; [|discriminate].
      rewrite extract_merged_spec in Hrun. rewrite extract_open_spec in Hrun.
      rewrite add_result_twice, join_buckets in Hrun.
      apply IH in Hrun as (tr & Hwire & Hgr & Hab & Hrep).
      simpl in Hwire, Hgr.
      exists ({| sent := reportRepository_request E (Organization (gr w)) repoName since;
                 received := reportReply report None |} :: tr).
      split; [rewrite Hwire; simpl; rewrite <- app_assoc; reflexivity|].
      split.
      * rewrite Hgr. change (?x :: tr) with ([x] ++ tr).
        rewrite classified_app, classified_report. simpl.
        unfold set_Result; simpl. f_equal. rewrite join_assoc. reflexivity.
      * split.
        -- destruct r as [e|]; simpl in *.
           ++ destruct Hab as (tr0 & ex & msg & -> & Hok & Hf & Hn).
              eexists (_ :: tr0), ex, msg. split; [reflexivity|].
              split; [|tauto]. constructor; [exact I | exact Hok].
           ++ constructor; [exact I | exact Hab].
        -- intros ex Hex. apply elem_of_cons in Hex as [->|Hex]; [simpl; eauto|].
           apply Hrep, Hex.
Qed.

Lemma aborted_at_cons named named' ex tr r :
  succeeded ex ->
  (∀ ex msg e, named ex msg e -> ex ∈ tr -> named' ex msg e) ->
  aborted_at named tr r -> aborted_at named' (ex :: tr) r.
Proof.
  intros Hex Hn. destruct r as [e|]; simpl.
  - intros (tr0 & ex' & msg & -> & Hok & Hf & Hnamed).
    exists (ex :: tr0), ex', msg. split; [reflexivity|].
    split; [constructor; assumption|]. split; [assumption|].
    apply Hn; [assumption|]. apply elem_of_app. right. apply list_elem_of_singleton.
    reflexivity.
  - intros Hok. constructor; assumption.
Qed.

(** The run, whenever it returns: the exchanges it added to the wire, the
    report it leaves behind, and how its error relates to the exchanges. *)
Lemma Run_returned E w r w' :
  Run E w = Returned r w' ->
  ∃ tr,
    wire w' = wire w ++ tr
    ∧ gr w' = set_Result (join (Result (gr w)) (classified (cutoff E w) tr))
                (set_ReportDate (Now E (wire w)) (gr w))
    ∧ aborted_at names_phase tr r.
Proof.
  unfold Run, mbind, M_bind, bind, read, update. cbv zeta.
  rewrite listSubsetRepositories_spec. cbv zeta. fold (cutoff E w).
  set (req := listSubsetRepositories_request _ _).
  simpl wire. simpl gr.
  destruct (run_repositories E (wire w) req) as [respData [e|]] eqn:Hreply; simpl.
  - intros Hrun. inversion Hrun; subst; clear Hrun.
    eexists [_]. split; [reflexivity|]. split.
    + simpl. rewrite classified_listing, join_no_result_r. reflexivity.
    + exists [], {| sent := req; received := repositoriesReply respData (Some e) |}, e.
      split; [reflexivity|]. split; [constructor|]. split; reflexivity.
  - destruct (Log (gr w)) as [f|] eqn:Hlog; [|discriminate].
    destruct (for_repositories E (cutoff E w) _ _) as [r2 w2| |] eqn:Hloop;
      [|discriminate..].
    apply for_repositories_returned in Hloop as (tr & Hwire & Hgr & Hab & Hrep).
    simpl in Hwire, Hgr.
    assert (Hend : ∀ w3, wire w3 = wire w2 -> gr w3 = gr w2 ->
              ∃ tr0, wire w3 = wire w ++ tr0
                ∧ gr w3 = set_Result
                            (join (Result (gr w)) (classified (cutoff E w) tr0))
                            (set_ReportDate (Now E (wire w)) (gr w))
                ∧ aborted_at names_phase tr0 r2).
    { intros w3 Hw3 Hg3.
      exists ({| sent := req; received := repositoriesReply respData None |} :: tr).
      split; [rewrite Hw3, Hwire, <- app_assoc; reflexivity|]. split.
      - rewrite Hg3, Hgr. change (?x :: tr) with ([x] ++ tr).
        rewrite classified_app, classified_listing, join_no_result_l. reflexivity.
      - eapply aborted_at_cons; [exact I| |exact Hab].
        intros ex msg e Hn Hex. destruct (Hrep ex Hex) as (resp & err & Hr).
        unfold names_phase. rewrite Hr. exact Hn. }
    destruct r2 as [e|].
    + intros Hrun. inversion Hrun; subst. apply Hend; reflexivity.
    + assert (Hlog2 : Log (gr w2) = Some f) by (rewrite Hgr; exact Hlog).
      unfold logf. rewrite Hlog2. simpl. rewrite Hlog2. simpl. rewrite Hlog2.
      unfold mret, M_ret, ret.
      intros Hrun. inversion Hrun; subst. apply Hend; reflexivity.
Qed.

Lemma returned_world_of {A} (o : Outcome A) w0 a :
  result_of o = Some a -> o = Returned a (world_of w0 o).
Proof. destruct o; simpl; intros H; inversion H; reflexivity. Qed.

Lemma panicked_world_of {A} (o : Outcome A) w0 :
  panicked o = true -> o = Panicked (world_of w0 o).
Proof. destruct o; simpl; intros H; inversion H; reflexivity. Qed.

Lemma failed_not_succeeded ex msg : failure ex = Some msg -> ¬ succeeded ex.
Proof.
  unfold failure, succeeded.
  destruct (received ex) as [resp [e|]|resp [e|]]; intros H; try discriminate; tauto.
Qed.

(** ** Runs against an endpoint whose answers are given *)

Lemma classified_report_calls E organization since names : ∀ reps,
  classified since (report_calls E organization since names reps)
  = buckets_of since names reps.
Proof.
  induction names as [|name names IH]; intros reps; [reflexivity|].
  destruct reps as [|report reps]; [reflexivity|].
  cbn [report_calls]. change (?x :: ?l) with ([x] ++ l).
  unfold report_call. rewrite classified_app, classified_report, IH.
  apply result_eq; unfold buckets_of, stamped; simpl; rewrite filter_app; reflexivity.
Qed.

Lemma for_repositories_fetched E since names : ∀ reps rest w f,
  Log (gr w) = Some f ->
  fetched E (Organization (gr w)) since (wire w) names reps ->
  ∃ w2,
    for_repositories E since (names ++ rest) w = for_repositories E since rest w2
    ∧ wire w2 = wire w ++ report_calls E (Organization (gr w)) since names reps
    ∧ gr w2 = set_Result (join (Result (gr w)) (buckets_of since names reps)) (gr w).
Proof.
  induction names as [|name names IH]; intros reps rest w f Hlog Hf.
  - destruct reps; [|contradiction]. exists w. simpl. rewrite app_nil_r.
    split; [reflexivity|]. split; [reflexivity|].
    change (buckets_of since [] []) with no_result. rewrite join_no_result_r.
    destruct (gr w); reflexivity.
  - destruct reps as [|report reps]; [contradiction|]. destruct Hf as [Hreply Hf].
    cbn [app for_repositories]. unfold mbind, M_bind, bind, read.
    rewrite reportRepository_spec. cbv zeta. rewrite Hreply. cbn [fst snd].
    rewrite Hlog, extract_merged_spec, extract_open_spec, add_result_twice, join_buckets.
    match goal with
    | |- context [for_repositories E since (names ++ rest) ?w1] =>
        destruct (IH reps rest w1 f Hlog Hf) as (w2 & Hrun & Hwire & Hgr)
    end.
    exists w2. split; [exact Hrun|]. simpl in Hwire, Hgr.
    split; [rewrite Hwire, <- app_assoc; reflexivity|].
    rewrite Hgr. unfold set_Result; simpl. f_equal. rewrite join_assoc. f_equal.
    rewrite <- (classified_report E since (Organization (gr w)) name report).
    rewrite <- !(classified_report_calls E (Organization (gr w))).
    rewrite <- classified_app. reflexivity.
Qed.

(** A run whose listing call brings back the page [p] and whose report
    calls for the first repositories [names] of the page are answered with
    [reps]: the run ends with a nil error if these are all the
    repositories of the page, and with the error of the next report if
    that call fails. *)
Lemma Run_served E w f p names reps rest :
  Log (gr w) = Some f ->
  run_repositories E (wire w)
    (listSubsetRepositories_request (Organization (gr w)) "") = (p, None) ->
  page_names p = names ++ rest ->
  fetched E (Organization (gr w)) (cutoff E w)
    (wire w ++ [listing_call (Organization (gr w)) p None]) names reps ->
  let calls := listing_call (Organization (gr w)) p None
               :: report_calls E (Organization (gr w)) (cutoff E w) names reps in
  let left := set_Result (join (Result (gr w)) (buckets_of (cutoff E w) names reps))
                (set_ReportDate (Now E (wire w)) (gr w)) in
  match rest with
  | [] => ∃ w', Run E w = Returned None w' ∧ wire w' = wire w ++ calls
                ∧ gr w' = left
  | failed :: _ =>
      ∀ report msg,
        run_report E (wire w ++ calls)
          (reportRepository_request E (Organization (gr w)) failed (cutoff E w))
        = (report, Some msg) ->
        ∃ w', Run E w = Returned (Some (report_error failed msg)) w'
              ∧ wire w' = wire w ++ calls
                          ++ [report_call E (Organization (gr w)) (cutoff E w)
                                failed report (Some msg)]
              ∧ gr w' = left
  end.
Proof.
  intros Hlog Hreply Hnames Hf calls left.
  unfold Run, mbind, M_bind, bind, read, update. cbv zeta.
  rewrite listSubsetRepositories_spec. cbv zeta. fold (cutoff E w).
  cbn [wire gr with_gr Organization set_ReportDate Log].
  rewrite Hreply. cbn [fst snd]. rewrite Hlog. fold (page_names p). rewrite Hnames.
  match goal with
  | |- context [for_repositories E (cutoff E w) (names ++ rest) ?w1] =>
      destruct (for_repositories_fetched E (cutoff E w) names reps rest w1 f Hlog Hf)
        as (w2 & Hrun & Hwire & Hgr)
  end.
  simpl in Hwire, Hgr.
  assert (Hlog2 : Log (gr w2) = Some f) by (rewrite Hgr; exact Hlog).
  destruct rest as [|failed rest].
  - rewrite Hrun. cbn [for_repositories]. unfold mret, M_ret, ret, logf.
    rewrite Hlog2. cbn [gr with_sink]. rewrite Hlog2. cbn [gr with_sink].
    rewrite Hlog2. eexists. split; [reflexivity|].
    split; [simpl; rewrite Hwire, <- app_assoc; reflexivity|].
    simpl. rewrite Hgr. reflexivity.
  - intros report msg Hfail. rewrite Hrun. cbn [for_repositories].
    unfold mbind, M_bind, bind, read. rewrite reportRepository_spec. cbv zeta.
    assert (Horg : Organization (gr w2) = Organization (gr w)) by (rewrite Hgr; reflexivity).
    rewrite Horg, Hwire, <- app_assoc. cbn [app].
    unfold calls, listing_call in Hfail. rewrite Hfail.
    cbn [fst snd]. eexists. split; [reflexivity|].
    split; [simpl; rewrite Hwire, <- !app_assoc; reflexivity|].
    simpl. rewrite Hgr. reflexivity.
Qed.

Lemma Run_fetched E w f p reps :
  Log (gr w) = Some f ->
  run_repositories E (wire w)
    (listSubsetRepositories_request (Organization (gr w)) "") = (p, None) ->
  fetched E (Organization (gr w)) (cutoff E w)
    (wire w ++ [listing_call (Organization (gr w)) p None]) (page_names p) reps ->
  ∃ w', Run E w = Returned None w'
        ∧ wire w' = wire w ++ listing_call (Organization (gr w)) p None
                      :: report_calls E (Organization (gr w)) (cutoff E w)
                           (page_names p) reps
        ∧ gr w' = set_Result
                    (join (Result (gr w))
                          (buckets_of (cutoff E w) (page_names p) reps))
                    (set_ReportDate (Now E (wire w)) (gr w)).
Proof.
  intros Hlog Hreply Hf.
  apply (Run_served E w f p (page_names p) reps [] Hlog Hreply);
    [symmetry; apply app_nil_r | exact Hf].
Qed.

Lemma Run_listing_fails E w p e :
  run_repositories E (wire w)
    (listSubsetRepositories_request (Organization (gr w)) "") = (p, Some e) ->
  ∃ w', Run E w = Returned (Some (listing_error e)) w'
        ∧ wire w' = wire w ++ [listing_call (Organization (gr w)) p (Some e)]
        ∧ Result (gr w') = Result (gr w).
Proof.
  intros Hreply. unfold Run, mbind, M_bind, bind, read, update. cbv zeta.
  rewrite listSubsetRepositories_spec. cbv zeta.
  cbn [wire gr with_gr Organization set_ReportDate Log].
  rewrite Hreply. cbn [fst snd]. eexists. split; [reflexivity|].
  split; reflexivity.
Qed.

Lemma elem_of_stamped sel names : ∀ reps x,
  x ∈ stamped sel names reps <->
  ∃ (i : nat) name report p,
    names !! i = Some name ∧ reps !! i = Some report
    ∧ p ∈ Nodes (sel (report_Repository report))
    ∧ x = set_Repository name p.
Proof.
  induction names as [|name names IH]; intros reps x.
  - split; [intros H; inversion H|].
    intros (i & n & r & p & Hn & _). rewrite lookup_nil in Hn. discriminate.
  - destruct reps as [|report reps].
    + split; [intros H; inversion H|].
      intros (i & n & r & p & _ & Hr & _). rewrite lookup_nil in Hr. discriminate.
    + change (stamped sel (name :: names) (report :: reps))
        with ((set_Repository name <$> Nodes (sel (report_Repository report)))
              ++ stamped sel names reps).
      rewrite elem_of_app, list_elem_of_fmap, IH. split.
      * intros [(p & -> & Hp) | (i & n & r & p & Hn & Hr & Hp & ->)].
        -- exists 0%nat, name, report, p. auto.
        -- exists (S i), n, r, p. auto.
      * intros (i & n & r & p & Hn & Hr & Hp & ->).
        destruct i as [|i]; simpl in Hn, Hr.
        -- left. injection Hn as <-. injection Hr as <-. eauto.
        -- right. eauto 10.
Qed.

Lemma stamped_State sel names reps x :
  x ∈ stamped sel names reps ->
  ∃ (i : nat) name report p,
    names !! i = Some name ∧ reps !! i = Some report
    ∧ p ∈ Nodes (sel (report_Repository report))
    ∧ Repository x = name ∧ State x = State p
    ∧ TotalCount (Timeline x) = TotalCount (Timeline p).
Proof.
  intros (i & name & report & p & Hn & Hr & Hp & ->)%elem_of_stamped.
  exists i, name, report, p. repeat split; assumption.
Qed.

Lemma filter_eq_iff (P Q : PRStruct -> Prop)
    {decP : ∀ x, Decision (P x)} {decQ : ∀ x, Decision (Q x)}
    (l : list PRStruct) :
  filter P l = filter Q l <-> ∀ x, x ∈ l -> (P x <-> Q x).
Proof.
  induction l as [|a l IH].
  - split; [intros _ x Hx; inversion Hx | reflexivity].
  - rewrite !filter_cons. destruct (decide (P a)) as [Hp|Hp], (decide (Q a)) as [Hq|Hq].
    + split.
      * intros [= H]. intros x [->|Hx]%elem_of_cons; [tauto | apply IH; assumption].
      * intros H. f_equal. apply IH. intros x Hx. apply H, elem_of_cons. auto.
    + split.
      * intros H. exfalso. assert (Ha : a ∈ filter Q l)
          by (rewrite <- H; apply elem_of_cons; auto).
        apply list_elem_of_filter in Ha as [Ha _]. contradiction.
      * intros H. exfalso. apply Hq, (H a); [apply elem_of_cons; auto | exact Hp].
    + split.
      * intros H. exfalso. assert (Ha : a ∈ filter P l)
          by (rewrite H; apply elem_of_cons; auto).
        apply list_elem_of_filter in Ha as [Ha _]. contradiction.
      * intros H. exfalso. apply Hp, (H a); [apply elem_of_cons; auto | exact Hq].
    + split.
      * intros H x [->|Hx]%elem_of_cons; [tauto | apply IH; assumption].
      * intros H. apply IH. intros x Hx. apply H, elem_of_cons. auto.
Qed.

(** ** Failure of a remote call (C3) *)

(** C3, as stated, fails: the second of three repositories fails, [Run]
    returns the error naming it, and the records classified from the first
    repository are still in the buckets of the report. *)
Lemma Run_error_keeps_records :
  ∃ w',
    Run (Sim.env 100 Sample.second_fails Sim.now) Sample.logging
    = Returned (Some (report_error "b" "graphql: server error")) w'
    ∧ MergedPRs (Result (gr w')) = [set_Repository "a" Sample.merged_recently]
    ∧ OpenPRsWithActivity (Result (gr w')) = [set_Repository "a" Sample.open_busy]
    ∧ OpenPRsWithoutActivity (Result (gr w')) = [set_Repository "a" Sample.open_idle].
Proof.
  set (E := Sim.env 100 Sample.second_fails Sim.now).
  exists (world_of Sample.logging (Run E Sample.logging)).
  split; [apply returned_world_of; vm_compute; reflexivity|].
  repeat split; vm_compute; reflexivity.
Qed.

(** C3, amended: when a remote call fails, [Run] returns an error at once.
    If the endpoint fails the listing call, [Run] returns the listing
    error after that single call and the buckets are as before.  If the
    endpoint answers the listing call and the report calls of the
    repositories [names], and fails the report call of the next
    repository [failed] of the page, [Run] returns the error naming
    [failed]; the failing call is the last one made (the repositories
    [rest] are not asked for); and the buckets are not emptied: they hold
    what they held before the run followed by the records kept of the
    reports of [names]. *)
Theorem Run_error_aborts E w :
  let organization := Organization (gr w) in
  let since := cutoff E w in
  let listing := listSubsetRepositories_request organization "" in
  (∀ p e,
     run_repositories E (wire w) listing = (p, Some e) ->
     ∃ w', Run E w = Returned (Some (listing_error e)) w'
           ∧ wire w' = wire w ++ [listing_call organization p (Some e)]
           ∧ Result (gr w') = Result (gr w))
  ∧ (∀ f p names failed rest reps report msg,
       Log (gr w) = Some f ->
       run_repositories E (wire w) listing = (p, None) ->
       page_names p = names ++ failed :: rest ->
       fetched E organization since
         (wire w ++ [listing_call organization p None]) names reps ->
       run_report E
         (wire w ++ listing_call organization p None
            :: report_calls E organization since names reps)
         (reportRepository_request E organization failed since)
       = (report, Some msg) ->
       ∃ w', Run E w = Returned (Some (report_error failed msg)) w'
             ∧ wire w' = wire w ++ listing_call organization p None
                           :: report_calls E organization since names reps
                           ++ [report_call E organization since failed report
                                 (Some msg)]
             ∧ Result (gr w')
               = join (Result (gr w)) (buckets_of since names reps)).
Proof.
  cbv zeta. split.
  - intros p e Hreply. apply Run_listing_fails, Hreply.
  - intros f p names failed rest reps report msg Hlog Hreply Hnames Hf Hfail.
    destruct (Run_served E w f p names reps (failed :: rest) Hlog Hreply Hnames Hf
                report msg Hfail) as (w' & Hrun & Hwire & Hgr).
    exists w'. split; [exact Hrun|]. split; [exact Hwire|].
    rewrite Hgr. reflexivity.
Qed.

Lemma Run_error_aborts_witness :
  (∃ w', Run Sim.down Sample.logging
         = Returned (Some (listing_error "graphql: server error")) w'
         ∧ wire w' = [listing_call "acme" Sim.noRepositories
                        (Some "graphql: server error")]
         ∧ Result (gr w') = no_result)
  ∧ (let E := Sim.env 100 Sample.second_fails Sim.now in
     let since := cutoff E Sample.logging in
     let p := Sim.page "acme" 3 ["a"; "b"; "c"] false in
     let reps := [Sim.report_of Sample.second_fails "a"] in
     ∃ w', Run E Sample.logging
           = Returned (Some (report_error "b" "graphql: server error")) w'
           ∧ wire w' = listing_call "acme" p None
                         :: report_calls E "acme" since ["a"] reps
                         ++ [report_call E "acme" since "b" Sim.noReport
                               (Some "graphql: server error")]
           ∧ Result (gr w') = join no_result (buckets_of since ["a"] reps)).
Proof.
  split.
  - apply (proj1 (Run_error_aborts Sim.down Sample.logging)
             Sim.noRepositories "graphql: server error").
    reflexivity.
  - intros E since p reps.
    apply (proj2 (Run_error_aborts E Sample.logging) Sim.println p ["a"] "b" ["c"]
             reps Sim.noReport "graphql: server error").
    + reflexivity.
    + vm_compute. reflexivity.
    + reflexivity.
    + vm_compute. repeat split.
    + vm_compute. reflexivity.
Defined.

(** ** The merged bucket (C4) *)

Lemma merged_since_iff since p :
  merged_since since p <->
  match time.parse_fields (MergedAt p) with
  | Some c => since < time.Date c
  | None => since < time.zero
  end.
Proof.
  unfold merged_since, parsed, time.Parse_ISO_FORM, time.After.
  destruct (time.parse_fields (MergedAt p)); simpl; apply bool_decide_spec.
Qed.

Lemma elem_of_merged_seen x tr :
  x ∈ merged_seen tr <->
  ∃ ex report p,
    ex ∈ tr ∧ received ex = reportReply report None
    ∧ p ∈ Nodes (MergedPR (report_Repository report))
    ∧ x = set_Repository (string_var (sent ex) "repo") p.
Proof.
  unfold merged_seen. rewrite list_elem_of_bind. split.
  - intros (ex & Hx & Hex).
    destruct (received ex) as [resp err|report [e|]] eqn:Hr;
      try (inversion Hx; fail).
    apply list_elem_of_fmap in Hx as (p & -> & Hp). eauto 10.
  - intros (ex & report & p & Hex & Hr & Hp & ->).
    exists ex. split; [|assumption]. rewrite Hr.
    apply list_elem_of_fmap. eauto.
Qed.

Lemma elem_of_open_seen x tr :
  x ∈ open_seen tr <->
  ∃ ex report p,
    ex ∈ tr ∧ received ex = reportReply report None
    ∧ p ∈ Nodes (OpenPR (report_Repository report))
    ∧ x = set_Repository (string_var (sent ex) "repo") p.
Proof.
  unfold open_seen. rewrite list_elem_of_bind. split.
  - intros (ex & Hx & Hex).
    destruct (received ex) as [resp err|report [e|]] eqn:Hr;
      try (inversion Hx; fail).
    apply list_elem_of_fmap in Hx as (p & -> & Hp). eauto 10.
  - intros (ex & report & p & Hex & Hr & Hp & ->).
    exists ex. split; [|assumption]. rewrite Hr.
    apply list_elem_of_fmap. eauto.
Qed.

(** C4, as stated, fails in both directions.  The merged loop never
    reads the field [State], and the merged selection of the report query
    does not ask for it, so the records of the merged bucket carry the
    empty state.  And a [MergedAt] that does not parse is read as the zero
    time, which is after [since] when the window reaches back before
    year 1: such a record is kept. *)
Lemma MergedPRs_not_as_stated :
  (∃ w' x,
     Run (Sim.env 100 Sample.healthy Sim.now) Sample.logging = Returned None w'
     ∧ x ∈ MergedPRs (Result (gr w'))
     ∧ merged_since (cutoff (Sim.env 100 Sample.healthy Sim.now) Sample.logging) x
     ∧ State x ≠ "MERGED")
  ∧ (∃ w' x,
       Run (Sim.env 100 Sample.undated Sim.now) (Sim.fresh (Some Sim.println) 800000)
       = Returned None w'
       ∧ x ∈ MergedPRs (Result (gr w'))
       ∧ State x = "MERGED"
       ∧ snd (time.Parse_ISO_FORM (MergedAt x)) ≠ None).
Proof.
  split.
  - set (E := Sim.env 100 Sample.healthy Sim.now).
    exists (world_of Sample.logging (Run E Sample.logging)).
    exists (set_Repository "a" Sample.merged_recently).
    split; [apply returned_world_of; vm_compute; reflexivity|].
    split; [vm_compute; apply elem_of_cons; left; reflexivity|].
    split; [vm_compute; exact I | discriminate].
  - set (E := Sim.env 100 Sample.undated Sim.now).
    set (w := Sim.fresh (Some Sim.println) 800000).
    exists (world_of w (Run E w)).
    exists (set_Repository "z" Sample.merged_undated).
    split; [apply returned_world_of; vm_compute; reflexivity|].
    split; [vm_compute; apply elem_of_cons; left; reflexivity|].
    split; [reflexivity | vm_compute; discriminate].
Qed.

(** C4, amended: when the endpoint answers the listing call of a run on
    a fresh report with the page [p] and the report calls for the
    repositories of the page with [reps], the run returns a nil error and
    a record is in the merged bucket if and only if it is a pull request
    of the merged list of one of these reports, stamped with the name of
    its repository, whose [MergedAt] parses to an instant strictly after
    [since]; the state of the record plays no part.  A [MergedAt] that
    does not parse is read as the zero time: the record is left out,
    without an error, unless [since] lies before the zero time. *)
Theorem MergedPRs_iff E w f p reps :
  Log (gr w) = Some f ->
  Result (gr w) = no_result ->
  run_repositories E (wire w)
    (listSubsetRepositories_request (Organization (gr w)) "") = (p, None) ->
  fetched E (Organization (gr w)) (cutoff E w)
    (wire w ++ [listing_call (Organization (gr w)) p None]) (page_names p) reps ->
  ∃ w',
    Run E w = Returned None w'
    ∧ ∀ x,
        x ∈ MergedPRs (Result (gr w')) <->
        ∃ (i : nat) name report pr,
          page_names p !! i = Some name ∧ reps !! i = Some report
          ∧ pr ∈ Nodes (MergedPR (report_Repository report))
          ∧ x = set_Repository name pr
          ∧ match time.parse_fields (MergedAt pr) with
            | Some c => cutoff E w < time.Date c
            | None => cutoff E w < time.zero
            end.
Proof.
  intros Hlog Hfresh Hreply Hf.
  destruct (Run_fetched E w f p reps Hlog Hreply Hf) as (w' & Hrun & _ & Hgr).
  exists w'. split; [exact Hrun|]. intros x.
  rewrite Hgr, Hfresh. simpl.
  rewrite list_elem_of_filter, elem_of_stamped. split.
  - intros (Hm & i & name & report & pr & Hn & Hr & Hp & ->).
    exists i, name, report, pr. repeat (split; [assumption || reflexivity|]).
    apply (merged_since_iff _ pr), Hm.
  - intros (i & name & report & pr & Hn & Hr & Hp & -> & Hm).
    split; [apply (merged_since_iff _ pr), Hm|]. eauto 10.
Qed.

Lemma MergedPRs_iff_witness :
  let E := Sim.env 100 Sample.healthy Sim.now in
  let w := Sample.logging in
  let p := Sim.page "acme" 2 ["a"; "c"] false in
  let reps := [Sim.report_of Sample.healthy "a"; Sim.report_of Sample.healthy "c"] in
  ∃ w',
    Run E w = Returned None w'
    ∧ ∀ x,
        x ∈ MergedPRs (Result (gr w')) <->
        ∃ (i : nat) name report pr,
          page_names p !! i = Some name ∧ reps !! i = Some report
          ∧ pr ∈ Nodes (MergedPR (report_Repository report))
          ∧ x = set_Repository name pr
          ∧ match time.parse_fields (MergedAt pr) with
            | Some c => cutoff E w < time.Date c
            | None => cutoff E w < time.zero
            end.
Proof.
  intros E w p reps. apply (MergedPRs_iff E w Sim.println p reps).
  - reflexivity.
  - reflexivity.
  - vm_compute. reflexivity.
  - vm_compute. repeat split.
Defined.

(** ** The open buckets (C5) *)

(** C5, as stated, fails: the open loop never reads the field [State].
    A pull request that comes back in the open list with the state
    [CLOSED] lands in [OpenPRsWithActivity], its state unchanged. *)
Lemma open_bucket_not_open :
  ∃ w' x,
    Run (Sim.env 100 Sample.mislabelled Sim.now) Sample.logging = Returned None w'
    ∧ x ∈ OpenPRsWithActivity (Result (gr w'))
    ∧ State x ≠ "OPEN".
Proof.
  set (E := Sim.env 100 Sample.mislabelled Sim.now).
  exists (world_of Sample.logging (Run E Sample.logging)).
  exists (set_Repository "a" Sample.closed_busy).
  split; [apply returned_world_of; vm_compute; reflexivity|].
  split; [vm_compute; apply elem_of_cons; left; reflexivity | discriminate].
Qed.

(** C5, amended: when the endpoint answers the listing call of a run on
    a fresh report with the page [p] and the report calls for the
    repositories of the page with [reps], the run returns a nil error and
    the two open buckets split the pull requests of the open lists of
    these reports, each stamped with the name of its repository: a record
    goes to [OpenPRsWithActivity] exactly when its [Timeline.TotalCount]
    is positive and to [OpenPRsWithoutActivity] otherwise, no record is
    in both, and the two buckets together are these pull requests, each
    as often as the endpoint sent it.  The state of a record is the one
    the endpoint sent; the code tests the count only. *)
Theorem open_buckets_partition E w f p reps :
  Log (gr w) = Some f ->
  Result (gr w) = no_result ->
  run_repositories E (wire w)
    (listSubsetRepositories_request (Organization (gr w)) "") = (p, None) ->
  fetched E (Organization (gr w)) (cutoff E w)
    (wire w ++ [listing_call (Organization (gr w)) p None]) (page_names p) reps ->
  ∃ w',
    Run E w = Returned None w'
    ∧ let opened := stamped OpenPR (page_names p) reps in
      let busy := OpenPRsWithActivity (Result (gr w')) in
      let idle := OpenPRsWithoutActivity (Result (gr w')) in
      busy = filter (fun x => TotalCount (Timeline x) > 0) opened
      ∧ idle = filter (fun x => ¬ TotalCount (Timeline x) > 0) opened
      ∧ (∀ x, x ∈ opened ->
           (x ∈ busy <-> TotalCount (Timeline x) > 0)
           ∧ (x ∈ idle <-> ¬ TotalCount (Timeline x) > 0))
      ∧ (∀ x, ¬ (x ∈ busy ∧ x ∈ idle))
      ∧ busy ++ idle ≡ₚ opened
      ∧ (∀ x, x ∈ busy ∨ x ∈ idle ->
           ∃ (i : nat) name report pr,
             page_names p !! i = Some name ∧ reps !! i = Some report
             ∧ pr ∈ Nodes (OpenPR (report_Repository report))
             ∧ Repository x = name ∧ State x = State pr
             ∧ TotalCount (Timeline x) = TotalCount (Timeline pr)).
Proof.
  intros Hlog Hfresh Hreply Hf.
  destruct (Run_fetched E w f p reps Hlog Hreply Hf) as (w' & Hrun & _ & Hgr).
  exists w'. split; [exact Hrun|]. cbv zeta.
  rewrite Hgr, Hfresh. simpl.
  split; [reflexivity|]. split; [reflexivity|]. split; [|split; [|split]].
  - intros x Hx. rewrite !list_elem_of_filter. tauto.
  - intros x. rewrite !list_elem_of_filter. tauto.
  - apply filter_app_complement.
  - intros x [Hx|Hx]; apply list_elem_of_filter in Hx as [_ Hx];
      apply stamped_State, Hx.
Qed.

Lemma open_buckets_partition_witness :
  let E := Sim.env 100 Sample.healthy Sim.now in
  let w := Sample.logging in
  let p := Sim.page "acme" 2 ["a"; "c"] false in
  let reps := [Sim.report_of Sample.healthy "a"; Sim.report_of Sample.healthy "c"] in
  ∃ w',
    Run E w = Returned None w'
    ∧ let opened := stamped OpenPR (page_names p) reps in
      let busy := OpenPRsWithActivity (Result (gr w')) in
      let idle := OpenPRsWithoutActivity (Result (gr w')) in
      busy = filter (fun x => TotalCount (Timeline x) > 0) opened
      ∧ idle = filter (fun x => ¬ TotalCount (Timeline x) > 0) opened
      ∧ (∀ x, x ∈ opened ->
           (x ∈ busy <-> TotalCount (Timeline x) > 0)
           ∧ (x ∈ idle <-> ¬ TotalCount (Timeline x) > 0))
      ∧ (∀ x, ¬ (x ∈ busy ∧ x ∈ idle))
      ∧ busy ++ idle ≡ₚ opened
      ∧ (∀ x, x ∈ busy ∨ x ∈ idle ->
           ∃ (i : nat) name report pr,
             page_names p !! i = Some name ∧ reps !! i = Some report
             ∧ pr ∈ Nodes (OpenPR (report_Repository report))
             ∧ Repository x = name ∧ State x = State pr
             ∧ TotalCount (Timeline x) = TotalCount (Timeline pr)).
Proof.
  intros E w p reps. apply (open_buckets_partition E w Sim.println p reps).
  - reflexivity.
  - reflexivity.
  - vm_compute. reflexivity.
  - vm_compute. repeat split.
Defined.

(** ** Running twice (C10) *)

(** C10, as stated, fails: the clock of the second run is later than the
    clock of the first, and so is its cutoff.  Here the report is run
    again nine days later against the same data: both runs return a nil
    error and receive the same replies, the second run keeps none of the
    merged pull requests, and the merged bucket holds each record once. *)
Lemma second_run_does_not_double :
  let E := Sim.ticking 100 Sample.healthy Sim.now (3 * time.nanosPerDay) in
  ∃ w1 w2,
    Run E Sample.logging = Returned None w1
    ∧ Run E w1 = Returned None w2
    ∧ received <$> drop (length (wire w1)) (wire w2) = received <$> wire w1
    ∧ MergedPRs (Result (gr w1))
      = [set_Repository "a" Sample.merged_recently;
         set_Repository "c" Sample.merged_in_c]
    ∧ MergedPRs (Result (gr w2)) = MergedPRs (Result (gr w1))
    ∧ OpenPRsWithActivity (Result (gr w2))
      = OpenPRsWithActivity (Result (gr w1)) ++ OpenPRsWithActivity (Result (gr w1)).
Proof.
  intros E.
  set (w1 := world_of Sample.logging (Run E Sample.logging)).
  exists w1, (world_of w1 (Run E w1)).
  split; [apply returned_world_of; vm_compute; reflexivity|].
  split; [apply returned_world_of; vm_compute; reflexivity|].
  repeat split; vm_compute; reflexivity.
Qed.

(** C10, amended: [NewActivityReport] starts with three empty buckets
    and [Run] never resets them.  When the endpoint answers the calls of
    a first run on the new report (the page [p1], the reports [reps1])
    and then the calls of a second run on the same report (the page [p2],
    the reports [reps2]), both runs return a nil error; after the first
    the buckets hold the records kept of [reps1], and after the second
    they hold these followed by the records the second run keeps of
    [reps2].  Over the same remote data (the same page and reports) the
    two open buckets hold every record twice; the merged bucket holds
    every record twice if and only if no merged pull request of the
    reports lies between the cutoffs of the two runs. *)
Theorem Run_twice_doubles E org token duration f t0 s0 p1 reps1 p2 reps2 :
  let w0 := {| gr := set_Log f (NewActivityReport org token duration);
               wire := t0; sink := s0 |} in
  let listing := listSubsetRepositories_request org "" in
  let since1 := AddDate E (Now E t0) (neg_int duration) in
  let t1 := t0 ++ listing_call org p1 None
                  :: report_calls E org since1 (page_names p1) reps1 in
  let since2 := AddDate E (Now E t1) (neg_int duration) in
  run_repositories E t0 listing = (p1, None) ->
  fetched E org since1 (t0 ++ [listing_call org p1 None]) (page_names p1) reps1 ->
  run_repositories E t1 listing = (p2, None) ->
  fetched E org since2 (t1 ++ [listing_call org p2 None]) (page_names p2) reps2 ->
  Result (NewActivityReport org token duration) = no_result
  ∧ ∃ w1 w2,
      Run E w0 = Returned None w1
      ∧ Run E w1 = Returned None w2
      ∧ Result (gr w1) = buckets_of since1 (page_names p1) reps1
      ∧ Result (gr w2)
        = join (Result (gr w1)) (buckets_of since2 (page_names p2) reps2)
      ∧ (page_names p2 = page_names p1 -> reps2 = reps1 ->
         OpenPRsWithActivity (Result (gr w2))
         = OpenPRsWithActivity (Result (gr w1))
           ++ OpenPRsWithActivity (Result (gr w1))
         ∧ OpenPRsWithoutActivity (Result (gr w2))
           = OpenPRsWithoutActivity (Result (gr w1))
             ++ OpenPRsWithoutActivity (Result (gr w1))
         ∧ (MergedPRs (Result (gr w2))
            = MergedPRs (Result (gr w1)) ++ MergedPRs (Result (gr w1))
            <-> ∀ x, x ∈ stamped MergedPR (page_names p1) reps1 ->
                     (time.After (parsed (MergedAt x)) since2
                      <-> time.After (parsed (MergedAt x)) since1))).
Proof.
  intros w0 listing since1 t1 since2 H1 Hf1 H2 Hf2.
  split; [reflexivity|].
  destruct (Run_fetched E w0 f p1 reps1 eq_refl H1 Hf1) as (w1 & Hrun1 & Hwire1 & Hgr1).
  assert (Hlog1 : Log (gr w1) = Some f) by (rewrite Hgr1; reflexivity).
  assert (Horg : Organization (gr w1) = org) by (rewrite Hgr1; reflexivity).
  assert (Ht1 : wire w1 = t1) by exact Hwire1.
  assert (Hcut : cutoff E w1 = since2).
  { unfold cutoff. rewrite Ht1, Hgr1. reflexivity. }
  destruct (Run_fetched E w1 f p2 reps2 Hlog1) as (w2 & Hrun2 & _ & Hgr2).
  { rewrite Horg, Ht1. exact H2. }
  { rewrite Horg, Hcut, Ht1. exact Hf2. }
  assert (HR1 : Result (gr w1) = buckets_of since1 (page_names p1) reps1).
  { rewrite Hgr1. simpl. apply join_no_result_l. }
  assert (HR2 : Result (gr w2)
                = join (Result (gr w1)) (buckets_of since2 (page_names p2) reps2)).
  { rewrite Hgr2, Hcut. reflexivity. }
  exists w1, w2. split; [exact Hrun1|]. split; [exact Hrun2|].
  split; [exact HR1|]. split; [exact HR2|].
  intros Hn Hr. rewrite HR2, HR1, Hn, Hr. simpl.
  split; [reflexivity|]. split; [reflexivity|].
  rewrite <- filter_eq_iff. split.
  - intros H. apply app_inv_head in H. exact H.
  - intros H. rewrite H. reflexivity.
Qed.

Lemma Run_twice_doubles_witness :
  let E := Sim.ticking 100 Sample.healthy Sim.now 1000000000 in
  let w0 := Sample.logging in
  let p := Sim.page "acme" 2 ["a"; "c"] false in
  let reps := [Sim.report_of Sample.healthy "a"; Sim.report_of Sample.healthy "c"] in
  let since1 := Sim.utc_AddDate Sim.now (-7) in
  let since2 := Sim.utc_AddDate (Sim.now + 3000000000) (-7) in
  Result (NewActivityReport "acme" "token" 7) = no_result
  ∧ ∃ w1 w2,
      Run E w0 = Returned None w1
      ∧ Run E w1 = Returned None w2
      ∧ Result (gr w1) = buckets_of since1 (page_names p) reps
      ∧ Result (gr w2) = join (Result (gr w1)) (buckets_of since2 (page_names p) reps)
      ∧ (page_names p = page_names p -> reps = reps ->
         OpenPRsWithActivity (Result (gr w2))
         = OpenPRsWithActivity (Result (gr w1))
           ++ OpenPRsWithActivity (Result (gr w1))
         ∧ OpenPRsWithoutActivity (Result (gr w2))
           = OpenPRsWithoutActivity (Result (gr w1))
             ++ OpenPRsWithoutActivity (Result (gr w1))
         ∧ (MergedPRs (Result (gr w2))
            = MergedPRs (Result (gr w1)) ++ MergedPRs (Result (gr w1))
            <-> ∀ x, x ∈ stamped MergedPR (page_names p) reps ->
                     (time.After (parsed (MergedAt x)) since2
                      <-> time.After (parsed (MergedAt x)) since1))).
Proof.
  intros E w0 p reps since1 since2.
  apply (Run_twice_doubles E "acme" "token" 7 Sim.println [] [] p reps p reps).
  - vm_compute. reflexivity.
  - vm_compute. repeat split.
  - vm_compute. reflexivity.
  - vm_compute. repeat split.
Defined.

(** ** Logging without a sink (C2) *)

Lemma Run_without_Log E w :
  Log (gr w) = None ->
  (run_repositories E (wire w)
     (listSubsetRepositories_request (Organization (gr w)) "")).2 = None ->
  ∃ w', Run E w = Panicked w'.
Proof.
  intros Hlog Hok.
  unfold Run, mbind, M_bind, bind, read, update. cbv zeta.
  rewrite listSubsetRepositories_spec.
  cbn [wire gr with_gr Organization set_ReportDate Log].
  rewrite Hok, Hlog. eauto.
Qed.

(** C2 does not hold of the code: [logf] calls [gr.Log] without testing it
    and [NewActivityReport] leaves it nil.  The report of the README, run
    against an endpoint that answers every call, panics at the first
    [logf]; the same run with a [Log] callback returns a nil error. *)
Theorem Run_panics_without_Log :
  let E := Sim.env 100 Sample.healthy Sim.now in
  gr Sample.silent = NewActivityReport "acme" "token" 7
  ∧ (∃ w', Run E Sample.silent = Panicked w'
           ∧ length (wire w') = 1%nat ∧ Forall succeeded (wire w'))
  ∧ (∃ w', Run E Sample.logging = Returned None w').
Proof.
  intros E. split; [reflexivity|]. split.
  - exists (world_of Sample.silent (Run E Sample.silent)).
    split; [apply panicked_world_of; vm_compute; reflexivity|].
    split; [vm_compute; reflexivity|]. vm_compute. repeat constructor.
  - exists (world_of Sample.logging (Run E Sample.logging)).
    apply returned_world_of. vm_compute. reflexivity.
Qed.

(** ** Which repositories a run covers (C1) *)

(** C1 does not hold of the code: [Run] enumerates the repositories with
    [listSubsetRepositories], the single-page variant its comment keeps
    for testing, and never calls [listRepositories].  On an organization
    of twelve repositories the full traversal returns the twelve names,
    while the run asks for the reports of the last ten only: the pull
    requests of [r1] and [r2] are missing from the report. *)
Theorem Run_lists_subset_only :
  let E := Sim.env 100 Twelve.repos Sim.now in
  (∃ w', listRepositories E 1 "acme" "" Sample.logging
         = Returned (Twelve.names, None) w')
  ∧ (∃ w', Run E Sample.logging = Returned None w'
           ∧ Repository <$> MergedPRs (Result (gr w')) = drop 2 Twelve.names
           ∧ (fun ex => string_var (sent ex) "repo") <$> wire w'
             = "" :: drop 2 Twelve.names)
  ∧ length Twelve.names = 12%nat.
Proof.
  intros E. split; [|split].
  - exists (world_of Sample.logging (listRepositories E 1 "acme" "" Sample.logging)).
    apply returned_world_of. vm_compute. reflexivity.
  - exists (world_of Sample.logging (Run E Sample.logging)).
    split; [apply returned_world_of; vm_compute; reflexivity|].
    split; vm_compute; reflexivity.
  - reflexivity.
Qed.

(** ** Enumerating the repositories (C6, C7) *)

Lemma listSubsetRepositories_size organization cursor :
  vars (listSubsetRepositories_request organization cursor) !! "size"
  = Some (VInt 10).
Proof. unfold listSubsetRepositories_request, Var; simpl. apply lookup_insert_eq. Qed.

Lemma listSubsetRepositories_query organization cursor :
  let req := listSubsetRepositories_request organization cursor in
  q req = (if bool_decide (cursor = "") then repositories_last_owner
           else repositories_first_after)
  ∧ vars req !! "cursor"
    = (if bool_decide (cursor = "") then None else Some (VString cursor))
  ∧ vars req !! "organization" = Some (VString organization).
Proof.
  unfold listSubsetRepositories_request. case_bool_decide; unfold Var; simpl.
  - split; [reflexivity|]. split.
    + rewrite !lookup_insert_ne by discriminate. apply lookup_empty.
    + rewrite lookup_insert_ne by discriminate. apply lookup_insert_eq.
  - split; [reflexivity|]. split.
    + rewrite !lookup_insert_ne by discriminate. apply lookup_insert_eq.
    + rewrite lookup_insert_ne by discriminate. apply lookup_insert_eq.
Qed.

(** C6, as stated, fails: called with the empty cursor, as [Run] calls
    it, [listSubsetRepositories] asks for [repositories(last:$size)].  On
    an organization of twelve repositories it returns the last ten names,
    [r3] to [r12]; the first page of the same size, the one
    [repositories(first:$size)] brings back, holds [r1] to [r10]. *)
Lemma subset_is_not_first_page :
  let E := Sim.env 100 Twelve.repos Sim.now in
  let first_page :=
    run_repositories E []
      (Var "size" (VInt 10) (Var "organization" (VString "acme")
         (NewRequest repositories_first_owner))) in
  ∃ w',
    listSubsetRepositories E "acme" "" Sample.logging
    = Returned (drop 2 Twelve.names, None) w'
    ∧ q <$> (sent <$> wire w') = [repositories_last_owner]
    ∧ page_names first_page.1 = take 10 Twelve.names
    ∧ drop 2 Twelve.names ≠ take 10 Twelve.names.
Proof.
  intros E first_page.
  exists (world_of Sample.logging (listSubsetRepositories E "acme" "" Sample.logging)).
  split; [apply returned_world_of; vm_compute; reflexivity|].
  split; [vm_compute; reflexivity|].
  split; [vm_compute; reflexivity|].
  vm_compute. discriminate.
Qed.

(** C6, amended: [listSubsetRepositories] sends exactly one request, of
    size 10, and returns the names of the page that comes back, whatever
    its [HasNextPage] says (or nil and the error when the call fails).
    The page asked for depends on the cursor: with the empty cursor the
    request is [repositories(last:$size, affiliations:OWNER)], the last
    ten repositories and not the first page; with a cursor it is
    [repositories(first:$size, after:$cursor)]. *)
Theorem listSubsetRepositories_one_page E organization cursor w f :
  Log (gr w) = Some f ->
  let req := listSubsetRepositories_request organization cursor in
  let reply := run_repositories E (wire w) req in
  ∃ w',
    listSubsetRepositories E organization cursor w
    = Returned (match reply.2 with
                | None => page_names reply.1
                | Some _ => []
                end, reply.2) w'
    ∧ wire w' = wire w ++ [{| sent := req;
                              received := repositoriesReply reply.1 reply.2 |}]
    ∧ vars req !! "size" = Some (VInt 10)
    ∧ gr w' = gr w
    ∧ q req = (if bool_decide (cursor = "") then repositories_last_owner
               else repositories_first_after)
    ∧ vars req !! "cursor"
      = (if bool_decide (cursor = "") then None else Some (VString cursor))
    ∧ vars req !! "organization" = Some (VString organization).
Proof.
  intros Hlog req reply. rewrite listSubsetRepositories_spec. cbv zeta.
  fold req. fold reply. rewrite Hlog.
  destruct (reply.2) as [e|]; eexists; (split; [reflexivity|]);
    (split; [reflexivity|]); (split; [apply listSubsetRepositories_size|]);
    (split; [reflexivity|]); apply listSubsetRepositories_query.
Qed.

(** With a page limit of five on the endpoint, the page after [r2] holds
    five names and announces a next page. *)
Lemma listSubsetRepositories_one_page_witness :
  let E := Sim.env 5 Twelve.repos Sim.now in
  let w := Sample.logging in
  let req := listSubsetRepositories_request "acme" "r2" in
  let reply := run_repositories E (wire w) req in
  HasNextPage (page_info reply.1) = true
  ∧ ∃ w',
    listSubsetRepositories E "acme" "r2" w
    = Returned (match reply.2 with
                | None => page_names reply.1
                | Some _ => []
                end, reply.2) w'
    ∧ wire w' = wire w ++ [{| sent := req;
                              received := repositoriesReply reply.1 reply.2 |}]
    ∧ vars req !! "size" = Some (VInt 10)
    ∧ gr w' = gr w
    ∧ q req = repositories_first_after
    ∧ vars req !! "cursor" = Some (VString "r2")
    ∧ vars req !! "organization" = Some (VString "acme").
Proof.
  intros E w req reply. split; [vm_compute; reflexivity|].
  apply (listSubsetRepositories_one_page E "acme" "r2" w Sim.println).
  reflexivity.
Defined.

Lemma listRepositories_step E fuel organization cursor w :
  listRepositories E (S fuel) organization cursor w =
  let req := listRepositories_request organization cursor in
  let reply := run_repositories E (wire w) req in
  let w1 := sent_with req (repositoriesReply reply.1 reply.2) w in
  let text := credits (Remaining (resp_RateLimit reply.1)) in
  match reply.2 with
  | Some e => Returned ([], Some e) w1
  | None =>
      if HasNextPage (page_info reply.1) then
        match listRepositories E fuel organization (EndCursor (page_info reply.1)) w1 with
        | Returned (_, Some e) w2 => Returned ([], Some e) w2
        | Returned (additionalRepos, None) w2 =>
            match Log (gr w2) with
            | Some f =>
                Returned (page_names reply.1 ++ additionalRepos, None)
                         (with_sink (f text) w2)
            | None => Panicked w2
            end
        | Panicked w2 => Panicked w2
        | Exhausted => Exhausted
        end
      else
        match Log (gr w1) with
        | Some f => Returned (page_names reply.1, None) (with_sink (f text) w1)
        | None => Panicked w1
        end
  end.
Proof.
  cbn [listRepositories].
  unfold client_Run_repositories, mbind, M_bind, bind, page_names, page_info.
  cbv zeta.
  destruct (run_repositories E (wire w) _) as [respData [e|]]; simpl; [reflexivity|].
  rewrite append_names_spec. simpl.
  destruct (HasNextPage _).
  - destruct (listRepositories E fuel organization _ _) as [[more [e|]] w2|w2|];
      try reflexivity.
    unfold logf. destruct (Log (gr w2)); reflexivity.
  - unfold logf; simpl. destruct (Log (gr w)); reflexivity.
Qed.

Lemma listRepositories_request_cursor organization cursor :
  cursor ≠ "" ->
  vars (listRepositories_request organization cursor) !! "cursor"
  = Some (VString cursor).
Proof.
  intros Hc. unfold listRepositories_request.
  rewrite bool_decide_eq_false_2 by exact Hc. unfold Var; simpl.
  rewrite !lookup_insert_ne by discriminate. apply lookup_insert_eq.
Qed.

(** C7: when the endpoint serves three pages whose [HasNextPage] flags are
    [true], [true] and [false], [listRepositories] asks for the first page
    without a cursor and for each next page with the [EndCursor] of the
    page before, and returns the names of the three pages in page order.
    When one of the calls fails, it is the last call made, and the
    traversal returns nil together with that error. *)
Theorem listRepositories_three_pages E organization w f fuel
    (r1 r2 r3 : repositoriesResponseStruct * option string) :
  let q1 := listRepositories_request organization "" in
  let x1 := {| sent := q1; received := repositoriesReply r1.1 r1.2 |} in
  let q2 := listRepositories_request organization (EndCursor (page_info r1.1)) in
  let x2 := {| sent := q2; received := repositoriesReply r2.1 r2.2 |} in
  let q3 := listRepositories_request organization (EndCursor (page_info r2.1)) in
  let x3 := {| sent := q3; received := repositoriesReply r3.1 r3.2 |} in
  Log (gr w) = Some f ->
  (3 <= fuel)%nat ->
  run_repositories E (wire w) q1 = r1 ->
  run_repositories E (wire w ++ [x1]) q2 = r2 ->
  run_repositories E (wire w ++ [x1; x2]) q3 = r3 ->
  HasNextPage (page_info r1.1) = true ->
  HasNextPage (page_info r2.1) = true ->
  HasNextPage (page_info r3.1) = false ->
  ∃ w',
    listRepositories E fuel organization "" w
    = Returned (match first_error [r1.2; r2.2; r3.2] with
                | None => page_names r1.1 ++ page_names r2.1 ++ page_names r3.1
                | Some _ => []
                end, first_error [r1.2; r2.2; r3.2]) w'
    ∧ wire w' = wire w ++ match r1.2, r2.2 with
                          | Some _, _ => [x1]
                          | None, Some _ => [x1; x2]
                          | None, None => [x1; x2; x3]
                          end
    ∧ (EndCursor (page_info r1.1) ≠ "" ->
       vars q2 !! "cursor" = Some (VString (EndCursor (page_info r1.1))))
    ∧ (EndCursor (page_info r2.1) ≠ "" ->
       vars q3 !! "cursor" = Some (VString (EndCursor (page_info r2.1)))).
Proof.
  intros q1 x1 q2 x2 q3 x3 Hlog Hfuel H1 H2 H3 Hn1 Hn2 Hn3.
  subst x1 x2 x3.
  destruct fuel as [|[|[|fuel]]]; try lia.
  rewrite listRepositories_step. cbv zeta. fold q1. rewrite H1.
  destruct r1 as [p1 [e1|]]; cbn [fst snd] in *.
  { eexists. split; [reflexivity|]. split; [reflexivity|].
    split; apply listRepositories_request_cursor. }
  rewrite Hn1. rewrite listRepositories_step. cbv zeta.
  cbn [wire sent_with with_wire]. fold q2. rewrite H2.
  destruct r2 as [p2 [e2|]]; cbn [fst snd] in *.
  { eexists. split; [reflexivity|]. split; [simpl; rewrite <- app_assoc; reflexivity|].
    split; apply listRepositories_request_cursor. }
  rewrite Hn2. rewrite listRepositories_step. cbv zeta.
  cbn [wire sent_with with_wire]. fold q3.
  rewrite <- app_assoc. cbn [app]. rewrite H3.
  destruct r3 as [p3 [e3|]]; cbn [fst snd] in *.
  { eexists. split; [reflexivity|].
    split; [simpl; rewrite <- !app_assoc; reflexivity|].
    split; apply listRepositories_request_cursor. }
  rewrite Hn3. cbn [gr sent_with with_wire with_sink]. rewrite Hlog.
  cbn [gr sent_with with_wire with_sink]. rewrite Hlog.
  cbn [gr sent_with with_wire with_sink]. rewrite Hlog.
  eexists. split; [reflexivity|].
  split; [simpl; rewrite <- !app_assoc; reflexivity|].
  split; apply listRepositories_request_cursor.
Qed.

Lemma listRepositories_three_pages_witness :
  let E := Sim.env 5 Twelve.repos Sim.now in
  let w := Sample.logging in
  let q1 := listRepositories_request "acme" "" in
  let r1 := run_repositories E [] q1 in
  let x1 := {| sent := q1; received := repositoriesReply r1.1 r1.2 |} in
  let q2 := listRepositories_request "acme" (EndCursor (page_info r1.1)) in
  let r2 := run_repositories E [x1] q2 in
  let x2 := {| sent := q2; received := repositoriesReply r2.1 r2.2 |} in
  let q3 := listRepositories_request "acme" (EndCursor (page_info r2.1)) in
  let r3 := run_repositories E [x1; x2] q3 in
  let x3 := {| sent := q3; received := repositoriesReply r3.1 r3.2 |} in
  page_names r1.1 ++ page_names r2.1 ++ page_names r3.1 = Twelve.names
  ∧ ∃ w',
    listRepositories E 3 "acme" "" w
    = Returned (match first_error [r1.2; r2.2; r3.2] with
                | None => page_names r1.1 ++ page_names r2.1 ++ page_names r3.1
                | Some _ => []
                end, first_error [r1.2; r2.2; r3.2]) w'
    ∧ wire w' = wire w ++ match r1.2, r2.2 with
                          | Some _, _ => [x1]
                          | None, Some _ => [x1; x2]
                          | None, None => [x1; x2; x3]
                          end
    ∧ (EndCursor (page_info r1.1) ≠ "" ->
       vars q2 !! "cursor" = Some (VString (EndCursor (page_info r1.1))))
    ∧ (EndCursor (page_info r2.1) ≠ "" ->
       vars q3 !! "cursor" = Some (VString (EndCursor (page_info r2.1)))).
Proof.
  intros E w q1 r1 x1 q2 r2 x2 q3 r3 x3.
  split; [vm_compute; reflexivity|].
  apply (listRepositories_three_pages E "acme" w Sim.println 3 r1 r2 r3);
    vm_compute; reflexivity.
Defined.

(** ** The ordering by age (C8) *)

Lemma digit_range c d : time.digit c = Some d -> 0 <= d <= 9.
Proof.
  unfold time.digit.
  destruct (_ && _) eqn:Hb; [|discriminate].
  apply andb_prop in Hb as [H1 H2]. intros [= <-]. lia.
Qed.

Lemma getnum_range s fixed n rest :
  time.getnum s fixed = Some (n, rest) -> 0 <= n.
Proof.
  unfold time.getnum.
  destruct s as [|c0 [|c1 s2]]; [discriminate| |];
    destruct (time.digit c0) as [d0|] eqn:H0; try discriminate;
    pose proof (digit_range _ _ H0).
  - destruct fixed; [discriminate|]. intros [= <- _]. lia.
  - destruct (time.digit c1) as [d1|] eqn:H1.
    + pose proof (digit_range _ _ H1). intros [= <- _]. lia.
    + destruct fixed; [discriminate|]. intros [= <- _]. lia.
Qed.

Lemma getyear_range s y rest : time.getyear s = Some (y, rest) -> 0 <= y.
Proof.
  unfold time.getyear.
  destruct s as [|a [|b [|c [|d s]]]]; try discriminate.
  destruct (time.digit a) eqn:Ha; [|discriminate].
  destruct (time.digit b) eqn:Hb; [|discriminate].
  destruct (time.digit c) eqn:Hc; [|discriminate].
  destruct (time.digit d) eqn:Hd; [|discriminate].
  apply digit_range in Ha, Hb, Hc, Hd. intros [= <- _]. lia.
Qed.

Lemma span_digits_range s :
  Forall (fun d => 0 <= d) (time.span_digits s).1.
Proof.
  induction s as [|c s IH]; simpl; [constructor|].
  destruct (time.digit c) as [d|] eqn:Hd; [|constructor].
  destruct (time.span_digits s) as [ds rest]. simpl in *.
  constructor; [apply digit_range in Hd; lia | exact IH].
Qed.

Lemma fold_digits_range ds acc :
  0 <= acc -> Forall (fun d => 0 <= d) ds ->
  0 <= fold_left (fun acc d => acc * 10 + d) ds acc.
Proof.
  revert acc. induction ds as [|d ds IH]; intros acc Hacc Hds; simpl; [exact Hacc|].
  inversion Hds; subst. apply IH; [lia | assumption].
Qed.

Lemma getfrac_range v ns rest : time.getfrac v = (ns, rest) -> 0 <= ns.
Proof.
  unfold time.getfrac. destruct v as [|sep v]; [intros [= <- _]; lia|].
  destruct (_ || _); [|intros [= <- _]; lia].
  pose proof (span_digits_range v) as Hds.
  destruct (time.span_digits v) as [[|d ds] rest']; [intros [= <- _]; lia|].
  intros [= <- _]. apply Z.mul_nonneg_nonneg.
  - apply fold_digits_range; [lia|]. apply (Forall_take _ 9 (d :: ds)). exact Hds.
  - apply Z.pow_nonneg. lia.
Qed.

Lemma guard_true b : time.guard b = Some tt -> b = true.
Proof. destruct b; [reflexivity | discriminate]. Qed.

(** The fields of a timestamp that parses are within their ranges. *)
Lemma parse_fields_range s c :
  time.parse_fields s = Some c ->
  0 <= time.year c ∧ 1 <= time.month c <= 12 ∧ 1 <= time.day c
  ∧ 0 <= time.hour c ∧ 0 <= time.minute c ∧ 0 <= time.second c
  ∧ 0 <= time.nanosecond c.
Proof.
  unfold time.parse_fields. intros H.
  repeat match type of H with
         | (?m ≫= _) = Some _ =>
             let E := fresh "E" in
             destruct m as [?|] eqn:E; simpl in H; [|discriminate H]
         | (let '(_, _) := ?p in _) = Some _ =>
             let E := fresh "E" in destruct p as [? ?] eqn:E; simpl in H
         end.
  subst. repeat match goal with u : unit |- _ => destruct u end.
  injection H as <-. simpl.
  repeat match goal with
         | E : time.guard _ = Some _ |- _ => apply guard_true in E
         | E : time.getnum _ _ = Some _ |- _ => apply getnum_range in E
         | E : time.getyear _ = Some _ |- _ => apply getyear_range in E
         | E : time.getfrac _ = _ |- _ => apply getfrac_range in E
         end.
  lia.
Qed.

Lemma daysBefore_nonneg m : 1 <= m <= 12 -> 0 <= time.daysBefore m.
Proof.
  intros Hm.
  assert (Hc : m = 1 ∨ m = 2 ∨ m = 3 ∨ m = 4 ∨ m = 5 ∨ m = 6 ∨ m = 7 ∨ m = 8
               ∨ m = 9 ∨ m = 10 ∨ m = 11 ∨ m = 12) by lia.
  repeat (destruct Hc as [->|Hc]; [vm_compute; discriminate|]).
  subst. vm_compute. discriminate.
Qed.

Lemma daysSinceEpoch_nonneg y : 1 <= y -> 0 <= time.daysSinceEpoch y.
Proof.
  intros Hy. unfold time.daysSinceEpoch.
  assert (0 <= (y - 1) / 4) by (apply Z.div_pos; lia).
  assert (0 <= (y - 1) / 400) by (apply Z.div_pos; lia).
  assert ((y - 1) / 100 <= y - 1) by (apply Z.div_le_upper_bound; lia).
  lia.
Qed.

(** A timestamp of year 1 or later is not before the zero [Time]. *)
Lemma Date_nonneg s c :
  time.parse_fields s = Some c -> 1 <= time.year c -> time.zero <= time.Date c.
Proof.
  intros Hp Hy. apply parse_fields_range in Hp as (_ & Hm & Hd & Hh & Hmi & Hs & Hn).
  pose proof (daysBefore_nonneg _ Hm). pose proof (daysSinceEpoch_nonneg _ Hy).
  unfold time.Date, time.zero.
  destruct ((2 <? time.month c) && time.isLeap (time.year c)); lia.
Qed.

Lemma index_in_range a i : 0 <= i < Len a -> ∃ x, index a i = Some x.
Proof.
  unfold index, Len. intros Hi.
  destruct (Z.ltb_spec i 0) as [|_]; [lia|].
  apply lookup_lt_is_Some. lia.
Qed.

Lemma ByAge_Less_eq a i j x y :
  index a i = Some x -> index a j = Some y ->
  ByAge.Less a i j
  = Some (bool_decide (parsed (CreatedAt x) < parsed (CreatedAt y))).
Proof.
  intros Hx Hy. unfold ByAge.Less. rewrite Hx, Hy. simpl.
  unfold parsed.
  destruct (time.Parse_ISO_FORM (CreatedAt x)) as [ti ei].
  destruct (time.Parse_ISO_FORM (CreatedAt y)) as [tj ej].
  reflexivity.
Qed.

(** C8, as stated, fails: a [CreatedAt] that does not parse is compared as
    the zero [Time], January 1 of year 1, which is not the oldest value a
    timestamp can parse to.  A record dated in year 0000 sorts before the
    record whose [CreatedAt] does not parse. *)
Lemma unparseable_is_not_oldest :
  let a := [ Sim.pr 1 "OPEN" "0000-06-15T12:00:00Z" "" 0;
             Sim.pr 2 "OPEN" "last week" "" 0 ] in
  time.parse_fields "last week" = None
  ∧ ByAge.Less a 0 1 = Some true
  ∧ ByAge.Less a 1 0 = Some false.
Proof. repeat split; vm_compute; reflexivity. Qed.

(** C8, amended: for indices within the slice, [ByAge.Less] never panics
    and orders the records ascending by the instant their [CreatedAt]
    parses to.  A [CreatedAt] that does not parse is compared as the zero
    [Time] (0001-01-01T00:00:00Z): no record dated in year 1 or later
    sorts before it, and two records that do not parse are tied. *)
Theorem ByAge_Less_spec a i j :
  0 <= i < Len a ->
  0 <= j < Len a ->
  ∃ x y,
    index a i = Some x ∧ index a j = Some y
    ∧ ByAge.Less a i j
      = Some (bool_decide (parsed (CreatedAt x) < parsed (CreatedAt y)))
    ∧ (∀ c, time.parse_fields (CreatedAt y) = Some c ->
            parsed (CreatedAt y) = time.Date c)
    ∧ (time.parse_fields (CreatedAt x) = None ->
       parsed (CreatedAt x) = time.zero
       ∧ (∀ c, time.parse_fields (CreatedAt y) = Some c -> 1 <= time.year c ->
               ByAge.Less a j i = Some false)
       ∧ (time.parse_fields (CreatedAt y) = None ->
          ByAge.Less a i j = Some false ∧ ByAge.Less a j i = Some false)).
Proof.
  intros Hi Hj.
  destruct (index_in_range a i Hi) as [x Hx].
  destruct (index_in_range a j Hj) as [y Hy].
  exists x, y. split; [exact Hx|]. split; [exact Hy|].
  split; [apply ByAge_Less_eq; assumption|].
  assert (Hparsed : ∀ s, parsed s = match time.parse_fields s with
                                   | Some c => time.Date c
                                   | None => time.zero
                                   end).
  { intros s. unfold parsed, time.Parse_ISO_FORM.
    destruct (time.parse_fields s); reflexivity. }
  split.
  - intros c Hc. rewrite Hparsed, Hc. reflexivity.
  - intros Hnx. split; [rewrite Hparsed, Hnx; reflexivity|]. split.
    + intros c Hc Hyear. rewrite (ByAge_Less_eq a j i y x Hy Hx).
      rewrite !Hparsed, Hnx, Hc. pose proof (Date_nonneg _ _ Hc Hyear).
      rewrite bool_decide_eq_false_2 by lia. reflexivity.
    + intros Hny. rewrite (ByAge_Less_eq a i j x y Hx Hy).
      rewrite (ByAge_Less_eq a j i y x Hy Hx).
      rewrite !Hparsed, Hnx, Hny. split; reflexivity.
Qed.

Lemma ByAge_Less_spec_witness :
  let a := [ Sim.pr 1 "OPEN" "last week" "" 0;
             Sim.pr 2 "OPEN" "2018-03-01T09:30:00Z" "" 0 ] in
  ∃ x y,
    index a 0 = Some x ∧ index a 1 = Some y
    ∧ ByAge.Less a 0 1
      = Some (bool_decide (parsed (CreatedAt x) < parsed (CreatedAt y)))
    ∧ (∀ c, time.parse_fields (CreatedAt y) = Some c ->
            parsed (CreatedAt y) = time.Date c)
    ∧ (time.parse_fields (CreatedAt x) = None ->
       parsed (CreatedAt x) = time.zero
       ∧ (∀ c, time.parse_fields (CreatedAt y) = Some c -> 1 <= time.year c ->
               ByAge.Less a 1 0 = Some false)
       ∧ (time.parse_fields (CreatedAt y) = None ->
          ByAge.Less a 0 1 = Some false ∧ ByAge.Less a 1 0 = Some false)).
Proof.
  intros a. apply (ByAge_Less_spec a 0 1); unfold Len; simpl; lia.
Defined.

(** ** The ordering by activity (C9) *)

Lemma index_nat (a : list PRStruct) (n : nat) : index a (Z.of_nat n) = a !! n.
Proof.
  unfold index. destruct (Z.ltb_spec (Z.of_nat n) 0) as [|_]; [lia|].
  rewrite Nat2Z.id. reflexivity.
Qed.

Lemma ByActivity_Less_eq a i j x y :
  index a i = Some x -> index a j = Some y ->
  ByActivity.Less a i j = Some (bool_decide (events x > events y)).
Proof. intros Hx Hy. unfold ByActivity.Less. rewrite Hx, Hy. reflexivity. Qed.

Lemma Swap_neighbours (pre post : list PRStruct) x y :
  Swap (pre ++ y :: x :: post) (Z.of_nat (S (length pre))) (Z.of_nat (length pre))
  = Some (pre ++ x :: y :: post).
Proof.
  unfold Swap. rewrite !index_nat, !Nat2Z.id.
  rewrite (list_lookup_middle pre (x :: post) y (length pre)) by reflexivity.
  replace (pre ++ y :: x :: post) with ((pre ++ [y]) ++ x :: post)
    by (rewrite <- app_assoc; reflexivity).
  rewrite (list_lookup_middle (pre ++ [y]) post x (S (length pre)))
    by (rewrite length_app; simpl; lia).
  simpl. f_equal.
  rewrite <- app_assoc. simpl.
  replace (S (length pre)) with (length pre + 1)%nat by lia.
  rewrite insert_app_r. simpl.
  replace (length pre) with (length pre + 0)%nat at 1 by lia.
  rewrite insert_app_r. reflexivity.
Qed.

Lemma sift_spec racc : ∀ x post,
  sift (reverse racc ++ x :: post) (length racc)
  = Some (reverse (ins x racc) ++ post).
Proof.
  induction racc as [|y r IH]; intros x post; [reflexivity|].
  cbn [length sift ins]. rewrite reverse_cons, <- app_assoc. cbn [app].
  rewrite <- (length_reverse r).
  assert (Hx : index (reverse r ++ y :: x :: post)
                     (Z.of_nat (S (length (reverse r)))) = Some x).
  { rewrite index_nat.
    replace (reverse r ++ y :: x :: post) with ((reverse r ++ [y]) ++ x :: post)
      by (rewrite <- app_assoc; reflexivity).
    apply list_lookup_middle. rewrite length_app; simpl; lia. }
  assert (Hy : index (reverse r ++ y :: x :: post)
                     (Z.of_nat (length (reverse r))) = Some y).
  { rewrite index_nat. apply list_lookup_middle. reflexivity. }
  rewrite (ByActivity_Less_eq _ _ _ x y Hx Hy). cbn [mbind option_bind].
  destruct (bool_decide (events x > events y)).
  - unfold ByActivity.Swap. rewrite Swap_neighbours. cbn [mbind option_bind].
    rewrite length_reverse, IH, reverse_cons, <- app_assoc. reflexivity.
  - rewrite !reverse_cons, <- !app_assoc. reflexivity.
Qed.

Lemma length_ins x racc : length (ins x racc) = S (length racc).
Proof.
  induction racc as [|y r IH]; [reflexivity|]. simpl.
  destruct (bool_decide _); simpl; [rewrite IH|]; reflexivity.
Qed.

Lemma insertions_spec rest : ∀ racc,
  insertions (reverse racc ++ rest) (length racc) (length rest)
  = Some (reverse (fold_left (fun acc x => ins x acc) rest racc)).
Proof.
  induction rest as [|x rest IH]; intros racc.
  - simpl. rewrite app_nil_r. reflexivity.
  - cbn [length insertions fold_left]. rewrite sift_spec. cbn [mbind option_bind].
    rewrite <- (length_ins x racc). apply IH.
Qed.

Lemma insertionSort_spec a :
  insertionSort a = Some (reverse (fold_left (fun acc x => ins x acc) a [])).
Proof.
  unfold insertionSort. destruct a as [|x rest]; [reflexivity|].
  replace (length (x :: rest) - 1)%nat with (length rest) by (simpl; lia).
  apply (insertions_spec rest [x]).
Qed.

Lemma ins_Permutation x racc : ins x racc ≡ₚ x :: racc.
Proof.
  induction racc as [|y r IH]; [reflexivity|]. simpl.
  destruct (bool_decide _); [|reflexivity].
  rewrite IH. apply Permutation_swap.
Qed.

Lemma ins_HdRel x y r :
  events y <= events x -> HdRel ascending y r -> HdRel ascending y (ins x r).
Proof.
  intros Hyx Hr. destruct r as [|z r]; simpl; [constructor; exact Hyx|].
  destruct (bool_decide _); constructor; [|exact Hyx].
  inversion Hr; assumption.
Qed.

Lemma ins_Sorted x racc : Sorted ascending racc -> Sorted ascending (ins x racc).
Proof.
  induction racc as [|y r IH]; intros Hs; simpl.
  - repeat constructor.
  - apply Sorted_inv in Hs as [Hs Hhd].
    destruct (bool_decide_reflect (events x > events y)) as [Hgt|Hle].
    + constructor; [apply IH, Hs|]. apply ins_HdRel; [lia | exact Hhd].
    + constructor; [constructor; assumption|]. constructor. unfold ascending. lia.
Qed.

Lemma ins_ties x racc k :
  filter (fun p => events p = k) (reverse (ins x racc))
  = filter (fun p => events p = k) (reverse racc)
    ++ filter (fun p => events p = k) [x].
Proof.
  induction racc as [|y r IH]; [reflexivity|]. simpl.
  destruct (bool_decide_reflect (events x > events y)) as [Hgt|Hle].
  - rewrite !reverse_cons, !filter_app, IH, <- !app_assoc. f_equal.
    rewrite !filter_cons, !filter_nil.
    destruct (decide (events x = k)), (decide (events y = k)); try reflexivity.
    lia.
  - rewrite (reverse_cons (y :: r)), filter_app. reflexivity.
Qed.

Lemma fold_ins_Permutation rest : ∀ racc,
  fold_left (fun acc x => ins x acc) rest racc ≡ₚ reverse racc ++ rest.
Proof.
  induction rest as [|x rest IH]; intros racc; simpl.
  - rewrite app_nil_r, reverse_Permutation. reflexivity.
  - rewrite IH, !reverse_Permutation, ins_Permutation.
    simpl. apply Permutation_middle.
Qed.

Lemma fold_ins_Sorted rest : ∀ racc,
  Sorted ascending racc ->
  Sorted ascending (fold_left (fun acc x => ins x acc) rest racc).
Proof.
  induction rest as [|x rest IH]; intros racc Hs; simpl; [exact Hs|].
  apply IH, ins_Sorted, Hs.
Qed.

Lemma fold_ins_ties rest k : ∀ racc,
  filter (fun p => events p = k)
         (reverse (fold_left (fun acc x => ins x acc) rest racc))
  = filter (fun p => events p = k) (reverse racc ++ rest).
Proof.
  induction rest as [|x rest IH]; intros racc; simpl.
  - rewrite app_nil_r. reflexivity.
  - rewrite IH, !filter_app, ins_ties, <- app_assoc.
    rewrite (filter_cons _ x rest), (filter_cons _ x []), filter_nil.
    destruct (decide (events x = k)); reflexivity.
Qed.

Lemma Sorted_neighbours (R : relation PRStruct) l i x y :
  Sorted R l -> l !! i = Some x -> l !! S i = Some y -> R x y.
Proof.
  intros Hs. revert i. induction Hs as [|a l Hs IH Hhd]; intros i Hx Hy.
  - discriminate.
  - destruct i as [|i]; simpl in *.
    + injection Hx as ->. destruct Hhd; [discriminate|].
      simpl in Hy. injection Hy as ->. assumption.
    + eapply IH; eassumption.
Qed.

Lemma Sorted_weaken (R R' : relation PRStruct) l :
  (∀ u v, R u v -> R' u v) -> Sorted R l -> Sorted R' l.
Proof.
  intros HR Hs. induction Hs as [|a l Hs IH Hhd]; constructor; [exact IH|].
  destruct Hhd; constructor. apply HR. assumption.
Qed.

Lemma IsSorted_from_descending a i :
  Sorted (flip ascending) a -> (i < length a)%nat ->
  IsSorted_from a i = Some true.
Proof.
  intros Hs. induction i as [|i IH]; intros Hi; [reflexivity|].
  cbn [IsSorted_from].
  destruct (lookup_lt_is_Some_2 a (S i) Hi) as [y Hy].
  destruct (lookup_lt_is_Some_2 a i ltac:(lia)) as [x Hx].
  rewrite (ByActivity_Less_eq a _ _ y x) by (rewrite index_nat; assumption).
  cbn [mbind option_bind].
  pose proof (Sorted_neighbours _ _ _ _ _ Hs Hx Hy) as Hxy.
  unfold flip, ascending in Hxy.
  rewrite bool_decide_eq_false_2 by lia. apply IH. lia.
Qed.

Lemma IsSorted_descending a : Sorted (flip ascending) a -> IsSorted a = Some true.
Proof.
  intros Hs. unfold IsSorted. destruct a as [|x a]; [reflexivity|].
  apply IsSorted_from_descending; [exact Hs|]. simpl. lia.
Qed.

(** C9, as stated, fails: the ordering alone does not fix the order of
    records with equal counts.  Both arrangements of two records with the
    same count are sorted for [ByActivity], and the second one reverses
    the input order. *)
Lemma ties_are_not_ordered :
  let p := Sim.pr 1 "OPEN" "" "" 1 in
  let q := Sim.pr 2 "OPEN" "" "" 1 in
  [q; p] ≡ₚ [p; q]
  ∧ IsSorted [q; p] = Some true
  ∧ ByActivity.Less [p; q] 0 1 = Some false
  ∧ ByActivity.Less [p; q] 1 0 = Some false
  ∧ ¬ keeps_ties [p; q] [q; p].
Proof.
  intros p q. split; [apply Permutation_swap|].
  split; [vm_compute; reflexivity|].
  split; [vm_compute; reflexivity|].
  split; [vm_compute; reflexivity|].
  intros H. specialize (H 1). vm_compute in H. discriminate H.
Qed.

(** C9, amended: [ByActivity.Less] is the descending comparison of the
    activity counts, and two records with equal counts are tied, neither
    being less than the other.  The order of tied records is left to the
    sorting algorithm: a sort that only swaps neighbours when [Less] says
    so (the insertion sort of Go's [sort] package, driven by [Less] and
    [Swap]) yields a permutation with the counts descending in which
    records of equal count keep their input order. *)
Theorem ByActivity_order a i j :
  0 <= i < Len a ->
  0 <= j < Len a ->
  ∃ x y,
    index a i = Some x ∧ index a j = Some y
    ∧ ByActivity.Less a i j
      = Some (bool_decide (TotalCount (Timeline x) > TotalCount (Timeline y)))
    ∧ (TotalCount (Timeline x) = TotalCount (Timeline y) ->
       ByActivity.Less a i j = Some false ∧ ByActivity.Less a j i = Some false)
    ∧ ∃ b,
        insertionSort a = Some b
        ∧ b ≡ₚ a
        ∧ IsSorted b = Some true
        ∧ Sorted (fun u v => TotalCount (Timeline u) >= TotalCount (Timeline v)) b
        ∧ keeps_ties a b.
Proof.
  intros Hi Hj.
  destruct (index_in_range a i Hi) as [x Hx].
  destruct (index_in_range a j Hj) as [y Hy].
  exists x, y. split; [exact Hx|]. split; [exact Hy|].
  split; [apply ByActivity_Less_eq; assumption|]. split.
  - intros Heq.
    rewrite (ByActivity_Less_eq a i j x y Hx Hy), (ByActivity_Less_eq a j i y x Hy Hx).
    unfold events. rewrite !bool_decide_eq_false_2 by lia. split; reflexivity.
  - eexists. split; [apply insertionSort_spec|].
    assert (Hs : Sorted (flip ascending)
                        (reverse (fold_left (fun acc x => ins x acc) a []))).
    { apply Sorted_reverse, fold_ins_Sorted. constructor. }
    split; [rewrite reverse_Permutation; apply (fold_ins_Permutation a [])|].
    split; [apply IsSorted_descending, Hs|]. split.
    + eapply Sorted_weaken; [|exact Hs].
      intros u v. unfold flip, ascending, events. lia.
    + intros k. apply (fold_ins_ties a k []).
Qed.

Lemma ByActivity_order_witness :
  let a := [ Sim.pr 1 "OPEN" "" "" 0; Sim.pr 2 "OPEN" "" "" 3;
             Sim.pr 3 "OPEN" "" "" 0; Sim.pr 4 "OPEN" "" "" 3 ] in
  insertionSort a
  = Some [ Sim.pr 2 "OPEN" "" "" 3; Sim.pr 4 "OPEN" "" "" 3;
           Sim.pr 1 "OPEN" "" "" 0; Sim.pr 3 "OPEN" "" "" 0 ]
  ∧ ∃ x y,
    index a 1 = Some x ∧ index a 3 = Some y
    ∧ ByActivity.Less a 1 3
      = Some (bool_decide (TotalCount (Timeline x) > TotalCount (Timeline y)))
    ∧ (TotalCount (Timeline x) = TotalCount (Timeline y) ->
       ByActivity.Less a 1 3 = Some false ∧ ByActivity.Less a 3 1 = Some false)
    ∧ ∃ b,
        insertionSort a = Some b
        ∧ b ≡ₚ a
        ∧ IsSorted b = Some true
        ∧ Sorted (fun u v => TotalCount (Timeline u) >= TotalCount (Timeline v)) b
        ∧ keeps_ties a b.
Proof.
  intros a. split; [vm_compute; reflexivity|].
  apply (ByActivity_order a 1 3); unfold Len; simpl; lia.
Defined.


(** ** The methods of [sort.Interface] *)

Lemma index_None a i : index a i = None <-> ¬ (0 <= i < Len a).
Proof.
  unfold index, Len. destruct (Z.ltb_spec i 0) as [Hneg|Hpos].
  - split; [lia | reflexivity].
  - rewrite lookup_ge_None. lia.
Qed.

(** The methods panic exactly on an index outside the slice: [Less] of
    either ordering and [Swap] fail if and only if one of the two indices
    is negative or not below [Len]. *)
Theorem Interface_bounds a i j :
  (ByActivity.Less a i j = None <-> ¬ (0 <= i < Len a ∧ 0 <= j < Len a))
  ∧ (ByAge.Less a i j = None <-> ¬ (0 <= i < Len a ∧ 0 <= j < Len a))
  ∧ (Swap a i j = None <-> ¬ (0 <= i < Len a ∧ 0 <= j < Len a)).
Proof.
  unfold ByActivity.Less, ByAge.Less, Swap.
  destruct (index a i) as [x|] eqn:Hi; destruct (index a j) as [y|] eqn:Hj;
    cbn [mbind option_bind].
  - assert (Hin : 0 <= i < Len a ∧ 0 <= j < Len a).
    { split; [destruct (decide (0 <= i < Len a)) as [|Hn]
             |destruct (decide (0 <= j < Len a)) as [|Hn]]; try assumption;
        apply index_None in Hn; congruence. }
    destruct (time.Parse_ISO_FORM (CreatedAt x)), (time.Parse_ISO_FORM (CreatedAt y)).
    repeat split; intros H; try discriminate; tauto.
  - apply index_None in Hj. repeat split; tauto.
  - apply index_None in Hi. repeat split; tauto.
  - apply index_None in Hi. repeat split; tauto.
Qed.

Lemma swap_lookup (a : list PRStruct) i j x y k :
  a !! i = Some x -> a !! j = Some y ->
  <[j:=x]> (<[i:=y]> a) !! k
  = a !! (if decide (k = i) then j else if decide (k = j) then i else k).
Proof.
  intros Hx Hy.
  pose proof (lookup_lt_Some _ _ _ Hx). pose proof (lookup_lt_Some _ _ _ Hy).
  rewrite !list_lookup_insert, !length_insert.
  repeat case_decide; destruct_and?; subst;
    try congruence; try lia; try tauto.
Qed.

Lemma swap_nat (a : list PRStruct) i j x y :
  a !! i = Some x -> a !! j = Some y ->
  let b := <[j:=x]> (<[i:=y]> a) in
  b !! i = Some y ∧ b !! j = Some x
  ∧ (∀ k, k ≠ i -> k ≠ j -> b !! k = a !! k)
  ∧ b ≡ₚ a
  ∧ <[j:=y]> (<[i:=x]> b) = a.
Proof.
  intros Hx Hy b.
  assert (Hb : ∀ k, b !! k
               = a !! (if decide (k = i) then j else if decide (k = j) then i else k))
    by (intros k; apply swap_lookup; assumption).
  assert (Hi : b !! i = Some y) by (rewrite Hb, decide_True by reflexivity; exact Hy).
  assert (Hj : b !! j = Some x).
  { rewrite Hb. destruct (decide (j = i)) as [->|]; [congruence|].
    rewrite decide_True by reflexivity. exact Hx. }
  split; [exact Hi|]. split; [exact Hj|]. split; [|split].
  - intros k Hki Hkj. rewrite Hb, !decide_False by assumption. reflexivity.
  - apply Permutation_inj. split; [unfold b; rewrite !length_insert; reflexivity|].
    exists (fun k => if decide (k = i) then j else if decide (k = j) then i else k).
    split; [|exact Hb].
    intros k1 k2. repeat case_decide; subst; congruence.
  - apply list_eq. intros k. rewrite (swap_lookup b i j y x k Hi Hj), Hb.
    f_equal. repeat case_decide; subst; congruence.
Qed.

Lemma Swap_index a i j x y :
  index a i = Some x -> index a j = Some y ->
  ∃ b,
    Swap a i j = Some b
    ∧ Len b = Len a
    ∧ index b i = Some y
    ∧ index b j = Some x
    ∧ (∀ k, k ≠ i -> k ≠ j -> index b k = index a k)
    ∧ b ≡ₚ a
    ∧ Swap b i j = Some a.
Proof.
  intros Hx Hy.
  assert (Hi : 0 <= i) by (unfold index in Hx; destruct (Z.ltb_spec i 0); [discriminate|lia]).
  assert (Hj : 0 <= j) by (unfold index in Hy; destruct (Z.ltb_spec j 0); [discriminate|lia]).
  destruct (Z_of_nat_complete i Hi) as [i' ->].
  destruct (Z_of_nat_complete j Hj) as [j' ->].
  unfold Swap. rewrite Hx, Hy. cbn [mbind option_bind].
  rewrite !index_nat in *. rewrite !Nat2Z.id.
  destruct (swap_nat a i' j' x y Hx Hy) as (Hbi & Hbj & Hbk & Hperm & Hback).
  eexists. split; [reflexivity|].
  split; [unfold Len; rewrite !length_insert; reflexivity|].
  rewrite !index_nat, Hbi, Hbj. cbn [mbind option_bind]. rewrite Hback.
  split; [reflexivity|]. split; [reflexivity|].
  split; [|split; [exact Hperm|reflexivity]].
  intros k Hki Hkj. unfold index. destruct (Z.ltb_spec k 0); [reflexivity|].
  apply Hbk; lia.
Qed.

(** [Swap] on two indices within the slice exchanges the two records and
    nothing else: the length and every other position are unchanged, the
    result is a permutation of the slice, and swapping again gives the
    slice back. *)
Theorem Swap_exchanges a i j :
  0 <= i < Len a ->
  0 <= j < Len a ->
  ∃ b,
    Swap a i j = Some b
    ∧ Len b = Len a
    ∧ index b i = index a j
    ∧ index b j = index a i
    ∧ (∀ k, k ≠ i -> k ≠ j -> index b k = index a k)
    ∧ b ≡ₚ a
    ∧ Swap b i j = Some a.
Proof.
  intros Hi Hj.
  destruct (index_in_range a i Hi) as [x Hx].
  destruct (index_in_range a j Hj) as [y Hy].
  destruct (Swap_index a i j x y Hx Hy) as (b & H1 & H2 & H3 & H4 & H5 & H6 & H7).
  exists b. rewrite Hx, Hy. repeat (split; [assumption|]). assumption.
Qed.

Lemma Swap_exchanges_witness :
  let a := [ Sim.pr 1 "OPEN" "" "" 0; Sim.pr 2 "OPEN" "" "" 3;
             Sim.pr 3 "OPEN" "" "" 5 ] in
  Swap a 0 2 = Some [ Sim.pr 3 "OPEN" "" "" 5; Sim.pr 2 "OPEN" "" "" 3;
                      Sim.pr 1 "OPEN" "" "" 0 ]
  ∧ ∃ b,
    Swap a 0 2 = Some b
    ∧ Len b = Len a
    ∧ index b 0 = index a 2
    ∧ index b 2 = index a 0
    ∧ (∀ k, k ≠ 0 -> k ≠ 2 -> index b k = index a k)
    ∧ b ≡ₚ a
    ∧ Swap b 0 2 = Some a.
Proof.
  intros a. split; [reflexivity|].
  apply (Swap_exchanges a 0 2); unfold Len; simpl; lia.
Defined.

(** [Less] after a [Swap]: when [Swap a i j] gives [b], each ordering
    compares the positions [i] and [j] of [b] as it compared [j] and [i]
    of [a], and compares two untouched positions as before. *)
Theorem Less_after_Swap a i j b :
  Swap a i j = Some b ->
  ByActivity.Less b i j = ByActivity.Less a j i
  ∧ ByAge.Less b i j = ByAge.Less a j i
  ∧ (∀ k l, k ≠ i -> k ≠ j -> l ≠ i -> l ≠ j ->
        ByActivity.Less b k l = ByActivity.Less a k l
        ∧ ByAge.Less b k l = ByAge.Less a k l).
Proof.
  intros Hswap.
  destruct (index a i) as [x|] eqn:Hx; [|unfold Swap in Hswap; rewrite Hx in Hswap; discriminate].
  destruct (index a j) as [y|] eqn:Hy; [|unfold Swap in Hswap; rewrite Hx, Hy in Hswap; discriminate].
  destruct (Swap_index a i j x y Hx Hy) as (b' & Hb' & _ & Hbi & Hbj & Hbk & _).
  assert (b' = b) by congruence. subst b'.
  unfold ByActivity.Less, ByAge.Less. rewrite Hbi, Hbj, Hx, Hy.
  split; [reflexivity|]. split; [reflexivity|].
  intros k l Hki Hkj Hli Hlj. rewrite !Hbk by assumption. split; reflexivity.
Qed.

Lemma Less_after_Swap_witness :
  let a := [ Sim.pr 1 "OPEN" "2018-03-01T00:00:00Z" "" 0;
             Sim.pr 2 "OPEN" "2018-02-01T00:00:00Z" "" 3 ] in
  let b := [ Sim.pr 2 "OPEN" "2018-02-01T00:00:00Z" "" 3;
             Sim.pr 1 "OPEN" "2018-03-01T00:00:00Z" "" 0 ] in
  ByActivity.Less b 0 1 = ByActivity.Less a 1 0
  ∧ ByAge.Less b 0 1 = ByAge.Less a 1 0
  ∧ (∀ k l, k ≠ 0 -> k ≠ 1 -> l ≠ 0 -> l ≠ 1 ->
        ByActivity.Less b k l = ByActivity.Less a k l
        ∧ ByAge.Less b k l = ByAge.Less a k l).
Proof.
  intros a b. apply (Less_after_Swap a 0 1 b). reflexivity.
Defined.

(** Both orderings are strict weak orders on the positions of a slice:
    [Less] is irreflexive, asymmetric and transitive, and being tied is
    transitive, also among records whose [CreatedAt] does not parse. *)
Theorem Less_strict_weak_order a i j k :
  0 <= i < Len a ->
  0 <= j < Len a ->
  0 <= k < Len a ->
  strict_weak_order (ByActivity.Less a) i j k
  ∧ strict_weak_order (ByAge.Less a) i j k.
Proof.
  intros Hi Hj Hk.
  destruct (index_in_range a i Hi) as [x Hx].
  destruct (index_in_range a j Hj) as [y Hy].
  destruct (index_in_range a k Hk) as [z Hz].
  split.
  - unfold strict_weak_order.
    rewrite (ByActivity_Less_eq a i i x x), (ByActivity_Less_eq a i j x y),
      (ByActivity_Less_eq a j i y x), (ByActivity_Less_eq a j k y z),
      (ByActivity_Less_eq a k j z y), (ByActivity_Less_eq a i k x z),
      (ByActivity_Less_eq a k i z x) by assumption.
    bool_decide_order.
  - unfold strict_weak_order.
    rewrite (ByAge_Less_eq a i i x x), (ByAge_Less_eq a i j x y),
      (ByAge_Less_eq a j i y x), (ByAge_Less_eq a j k y z),
      (ByAge_Less_eq a k j z y), (ByAge_Less_eq a i k x z),
      (ByAge_Less_eq a k i z x) by assumption.
    bool_decide_order.
Qed.

Lemma Less_strict_weak_order_witness :
  let a := [ Sim.pr 1 "OPEN" "2018-03-01T00:00:00Z" "" 0;
             Sim.pr 2 "OPEN" "no date" "" 3;
             Sim.pr 3 "OPEN" "2018-02-01T00:00:00Z" "" 3 ] in
  strict_weak_order (ByActivity.Less a) 0 1 2
  ∧ strict_weak_order (ByAge.Less a) 0 1 2.
Proof.
  intros a. apply (Less_strict_weak_order a 0 1 2); unfold Len; simpl; lia.
Defined.

(** ** Traversals of any length *)

Lemma chain_app organization cursor ps p :
  chain organization cursor (ps ++ [p])
  = chain organization cursor ps
    ++ [{| sent := listRepositories_request organization (last_cursor cursor ps);
           received := repositoriesReply p None |}].
Proof.
  revert cursor. induction ps as [|p0 ps IH]; intros cursor; simpl; [reflexivity|].
  rewrite IH. reflexivity.
Qed.

(** [listRepositories] over any number of pages: when the endpoint serves
    the pages [ps], each announcing a next page, and then a last page [p]
    that announces none, the traversal returns the names of all the pages
    in page order, makes exactly one call per page, leaves the report
    untouched and writes one log line per page, the last page first. *)
Theorem listRepositories_all_pages E organization ps : ∀ cursor w f fuel p,
  answered E organization (wire w) cursor ps ->
  run_repositories E (wire w ++ chain organization cursor ps)
    (listRepositories_request organization (last_cursor cursor ps)) = (p, None) ->
  HasNextPage (page_info p) = false ->
  Log (gr w) = Some f ->
  (length ps < fuel)%nat ->
  ∃ w',
    listRepositories E fuel organization cursor w
    = Returned ((ps ≫= page_names) ++ page_names p, None) w'
    ∧ wire w' = wire w ++ chain organization cursor (ps ++ [p])
    ∧ gr w' = gr w
    ∧ sink w' = logged_pages f (ps ++ [p]) (sink w).
Proof.
  induction ps as [|p0 ps IH]; intros cursor w f fuel p Hans Hlast Hmore Hlog Hfuel;
    (destruct fuel as [|fuel]; [simpl in Hfuel; lia|]);
    rewrite listRepositories_step; cbv zeta.
  - simpl in Hlast. rewrite app_nil_r in Hlast. rewrite Hlast. cbn [fst snd].
    rewrite Hmore. cbn [gr sent_with with_wire]. rewrite Hlog.
    eexists. split; [reflexivity|]. repeat split; reflexivity.
  - destruct Hans as (H0 & Hmore0 & Hans). rewrite H0. cbn [fst snd]. rewrite Hmore0.
    set (w1 := sent_with (listRepositories_request organization cursor)
                 (repositoriesReply p0 None) w).
    destruct (IH (EndCursor (page_info p0)) w1 f fuel p) as (w2 & Hrun & Hwire & Hgr & Hsink).
    + exact Hans.
    + simpl. rewrite <- app_assoc. exact Hlast.
    + exact Hmore.
    + exact Hlog.
    + simpl in Hfuel. lia.
    + rewrite Hrun, Hgr. cbn [gr w1 sent_with with_wire]. rewrite Hlog.
      eexists. split; [rewrite bind_cons, <- app_assoc; reflexivity|].
      split; [simpl; rewrite Hwire; simpl; rewrite <- app_assoc; reflexivity|].
      split; [simpl; rewrite Hgr; reflexivity|].
      simpl. rewrite Hsink. reflexivity.
Qed.

Lemma listRepositories_all_pages_witness :
  let E := Sim.env 3 Twelve.repos Sim.now in
  let w := Sample.logging in
  let p1 := Sim.page "acme" 12 ["r1"; "r2"; "r3"] true in
  let p2 := Sim.page "acme" 12 ["r4"; "r5"; "r6"] true in
  let p3 := Sim.page "acme" 12 ["r7"; "r8"; "r9"] true in
  let p4 := Sim.page "acme" 12 ["r10"; "r11"; "r12"] false in
  let ps := [p1; p2; p3] in
  (ps ≫= page_names) ++ page_names p4 = Twelve.names
  ∧ ∃ w',
    listRepositories E 4 "acme" "" w
    = Returned ((ps ≫= page_names) ++ page_names p4, None) w'
    ∧ wire w' = wire w ++ chain "acme" "" (ps ++ [p4])
    ∧ gr w' = gr w
    ∧ sink w' = logged_pages Sim.println (ps ++ [p4]) (sink w).
Proof.
  intros E w p1 p2 p3 p4 ps. split; [vm_compute; reflexivity|].
  apply (listRepositories_all_pages E "acme" ps "" w Sim.println 4 p4).
  - vm_compute. repeat split; reflexivity.
  - vm_compute. reflexivity.
  - reflexivity.
  - reflexivity.
  - simpl. lia.
Defined.

(** A failing call ends the traversal, however deep: after the pages
    [ps], each announcing a next page, a call that fails makes
    [listRepositories] return nil and that error.  Nothing is logged, the
    report is untouched and no further call is made; this holds whether
    or not [Log] is set. *)
Theorem listRepositories_fails E organization ps : ∀ cursor w fuel p e,
  answered E organization (wire w) cursor ps ->
  run_repositories E (wire w ++ chain organization cursor ps)
    (listRepositories_request organization (last_cursor cursor ps)) = (p, Some e) ->
  (length ps < fuel)%nat ->
  ∃ w',
    listRepositories E fuel organization cursor w = Returned ([], Some e) w'
    ∧ wire w' = wire w ++ chain organization cursor ps
                ++ [{| sent := listRepositories_request organization
                                 (last_cursor cursor ps);
                       received := repositoriesReply p (Some e) |}]
    ∧ gr w' = gr w
    ∧ sink w' = sink w.
Proof.
  induction ps as [|p0 ps IH]; intros cursor w fuel p e Hans Hlast Hfuel;
    (destruct fuel as [|fuel]; [simpl in Hfuel; lia|]);
    rewrite listRepositories_step; cbv zeta.
  - simpl in Hlast. rewrite app_nil_r in Hlast. rewrite Hlast. cbn [fst snd].
    eexists. split; [reflexivity|]. repeat split; reflexivity.
  - destruct Hans as (H0 & Hmore0 & Hans). rewrite H0. cbn [fst snd]. rewrite Hmore0.
    set (w1 := sent_with (listRepositories_request organization cursor)
                 (repositoriesReply p0 None) w).
    destruct (IH (EndCursor (page_info p0)) w1 fuel p e) as (w2 & Hrun & Hwire & Hgr & Hsink).
    + exact Hans.
    + simpl. rewrite <- app_assoc. exact Hlast.
    + simpl in Hfuel. lia.
    + rewrite Hrun. eexists. split; [reflexivity|].
      split; [rewrite Hwire; simpl; rewrite <- app_assoc; reflexivity|].
      split; [rewrite Hgr; reflexivity | rewrite Hsink; reflexivity].
Qed.

Lemma listRepositories_fails_witness :
  let E := {| run_repositories := fun t req =>
                if bool_decide (length t < 2)%nat
                then (Sim.page "acme" 9 ["r"] true, None)
                else (Sim.noRepositories, Some "graphql: server error");
              run_report := fun _ _ => (Sim.noReport, None);
              Now := fun _ => Sim.now;
              AddDate := Sim.utc_AddDate; Format := Sim.utc_Format |} in
  let w := Sample.silent in
  let p := Sim.page "acme" 9 ["r"] true in
  ∃ w',
    listRepositories E 5 "acme" "" w
    = Returned ([], Some "graphql: server error") w'
    ∧ wire w' = wire w ++ chain "acme" "" [p; p]
                ++ [{| sent := listRepositories_request "acme" (last_cursor "" [p; p]);
                       received := repositoriesReply Sim.noRepositories
                                     (Some "graphql: server error") |}]
    ∧ gr w' = gr w
    ∧ sink w' = sink w.
Proof.
  intros E w p.
  apply (listRepositories_fails E "acme" [p; p] "" w 5 Sim.noRepositories).
  - vm_compute. repeat split; reflexivity.
  - vm_compute. reflexivity.
  - simpl. lia.
Defined.

(** No page cap: against an endpoint whose every page announces a next
    page, [listRepositories] never returns, whatever depth of recursion
    it is given. *)
Theorem listRepositories_endless E :
  (∀ t req, (run_repositories E t req).2 = None
            ∧ HasNextPage (page_info (run_repositories E t req).1) = true) ->
  ∀ fuel organization cursor w,
    listRepositories E fuel organization cursor w = Exhausted.
Proof.
  intros Hmore fuel. induction fuel as [|fuel IH]; intros organization cursor w;
    [reflexivity|].
  rewrite listRepositories_step. cbv zeta.
  destruct (Hmore (wire w) (listRepositories_request organization cursor)) as [-> ->].
  rewrite IH. reflexivity.
Qed.

Lemma listRepositories_endless_witness :
  listRepositories endless 1000 "acme" "" Sample.logging = Exhausted.
Proof.
  apply (listRepositories_endless endless). intros t req. split; reflexivity.
Defined.

(** ** The calls and the log of a run *)

Lemma log_lines_app t1 t2 : log_lines (t1 ++ t2) = log_lines t1 ++ log_lines t2.
Proof. unfold log_lines. apply bind_app. Qed.

Lemma written_app f l1 l2 out :
  written f (l1 ++ l2) out = written f l2 (written f l1 out).
Proof. unfold written. apply foldl_app. Qed.

Lemma for_repositories_script E since repositories : ∀ w f,
  Log (gr w) = Some f ->
  ∃ r w' tr n,
    for_repositories E since repositories w = Returned r w'
    ∧ wire w' = wire w ++ tr
    ∧ sink w' = written f (log_lines tr) (sink w)
    ∧ sent <$> tr
      = (fun name => reportRepository_request E (Organization (gr w)) name since)
          <$> take n repositories
    ∧ (∀ ex, ex ∈ tr -> ∃ resp err, received ex = reportReply resp err)
    ∧ match r with
      | None => n = length repositories
      | Some e =>
          ∃ name msg, repositories !! pred n = Some name ∧ (0 < n)%nat
                      ∧ e = report_error name msg
      end.
Proof.
  induction repositories as [|repoName repositories IH]; intros w f Hlog.
  - exists None, w, [], O. simpl. rewrite app_nil_r.
    repeat split; try reflexivity. intros ex Hex. inversion Hex.
  - cbn [for_repositories]. unfold mbind, M_bind, bind, read.
    rewrite reportRepository_spec. cbv zeta.
    destruct (run_report E (wire w) _) as [report [e|]] eqn:Hreply; cbn [fst snd].
    + eexists (Some _), _, [_], 1%nat. split; [reflexivity|].
      split; [reflexivity|]. split; [reflexivity|]. split; [reflexivity|].
      split; [intros ex ->%list_elem_of_singleton; simpl; eauto|].
      exists repoName, e. repeat split. lia.
    + rewrite Hlog, extract_merged_spec, extract_open_spec.
      match goal with
      | |- context [for_repositories E since repositories ?w2] =>
          destruct (IH w2 f Hlog) as (r & w' & tr & n & Hrun & Hwire & Hsink & Hsent & Hrep & Hr)
      end.
      rewrite Hrun.
      exists r, w', ({| sent := reportRepository_request E (Organization (gr w)) repoName since;
                        received := reportReply report None |} :: tr), (S n).
      split; [reflexivity|].
      split; [rewrite Hwire; simpl; rewrite <- app_assoc; reflexivity|].
      split; [rewrite Hsink; reflexivity|].
      split; [rewrite fmap_cons, Hsent; reflexivity|].
      split.
      * intros ex [->|Hex]%elem_of_cons; [simpl; eauto | apply Hrep, Hex].
      * destruct r as [e|]; [|simpl; congruence].
        destruct Hr as (name & msg & Hname & Hn & ->).
        exists name, msg. split; [|split; [lia|reflexivity]].
        destruct n as [|n]; [lia|]. exact Hname.
Qed.

Lemma Run_script E w f :
  Log (gr w) = Some f ->
  let req := listSubsetRepositories_request (Organization (gr w)) "" in
  let reply := run_repositories E (wire w) req in
  let first := {| sent := req; received := repositoriesReply reply.1 reply.2 |} in
  let names := page_names reply.1 in
  ∃ r w' tr n,
    Run E w = Returned r w'
    ∧ wire w' = wire w ++ first :: tr
    ∧ (∀ ex, ex ∈ tr -> ∃ resp err, received ex = reportReply resp err)
    ∧ match reply.2 with
      | Some e => r = Some (listing_error e) ∧ tr = [] ∧ sink w' = sink w
      | None =>
          sent <$> tr
          = (fun name => reportRepository_request E (Organization (gr w)) name
                           (cutoff E w)) <$> take n names
          ∧ match r with
            | None =>
                n = length names
                ∧ sink w' = written f (log_lines (first :: tr)
                                       ++ totals (Result (gr w'))) (sink w)
            | Some e =>
                (∃ name msg, names !! pred n = Some name ∧ (0 < n)%nat
                             ∧ e = report_error name msg)
                ∧ sink w' = written f (log_lines (first :: tr)) (sink w)
            end
      end.
Proof.
  intros Hlog req reply first names.
  unfold Run, mbind, M_bind, bind, read, update. cbv zeta.
  rewrite listSubsetRepositories_spec. cbv zeta. fold (cutoff E w).
  cbn [wire gr with_gr Organization set_ReportDate Log]. fold req. fold reply.
  subst first names. destruct (reply.2) as [e|] eqn:Herr.
  - exists (Some (listing_error e)), (sent_with req (repositoriesReply reply.1 (Some e))
                                        (with_gr (set_ReportDate (Now E (wire w))) w)),
      [], O.
    split; [reflexivity|]. split; [reflexivity|].
    split; [intros ex Hex; inversion Hex|]. repeat split; reflexivity.
  - rewrite Hlog.
    match goal with
    | |- context [for_repositories E (cutoff E w) ?l ?w1] =>
        destruct (for_repositories_script E (cutoff E w) l w1 f Hlog)
          as (r & w2 & tr & n & Hrun & Hwire & Hsink & Hsent & Hrep & Hr);
        pose proof (for_repositories_returned E (cutoff E w) l w1 r w2 Hrun)
          as (tr' & _ & Hgr & _)
    end.
    rewrite Hrun. simpl in Hwire, Hsink, Hsent, Hgr.
    assert (Hlines : ∀ t, log_lines ({| sent := req;
                                        received := repositoriesReply reply.1 None |} :: t)
                          = credits (Remaining (resp_RateLimit reply.1)) :: log_lines t)
      by reflexivity.
    destruct r as [e|].
    + exists (Some e), w2, tr, n. split; [reflexivity|].
      split; [rewrite Hwire, <- app_assoc; reflexivity|].
      split; [exact Hrep|]. split; [exact Hsent|]. split; [exact Hr|].
      rewrite Hlines. exact Hsink.
    + assert (Hlog2 : Log (gr w2) = Some f) by (rewrite Hgr; exact Hlog).
      unfold logf. rewrite Hlog2. cbn [gr with_sink]. rewrite Hlog2.
      cbn [gr with_sink]. rewrite Hlog2. unfold mret, M_ret, ret.
      eexists None, _, tr, n. split; [reflexivity|].
      split; [simpl; rewrite Hwire, <- app_assoc; reflexivity|].
      split; [exact Hrep|]. split; [exact Hsent|]. split; [exact Hr|].
      rewrite written_app, Hlines. cbn [sink with_sink gr]. rewrite Hsink.
      reflexivity.
Qed.

(** How a run ends.  If the listing call fails, [Run] returns the listing
    error after that one call, with the buckets and the log untouched,
    whether or not [Log] is set.  If it succeeds and [Log] is set, [Run]
    returns (a nil error or an error) and never panics.  If it succeeds
    and [Log] is nil, [Run] panics right after that call, before any
    report is fetched. *)
Theorem Run_outcome E w :
  let req := listSubsetRepositories_request (Organization (gr w)) "" in
  let reply := run_repositories E (wire w) req in
  let first := {| sent := req; received := repositoriesReply reply.1 reply.2 |} in
  match reply.2, Log (gr w) with
  | Some e, _ =>
      ∃ w', Run E w = Returned (Some (listing_error e)) w'
            ∧ wire w' = wire w ++ [first]
            ∧ Result (gr w') = Result (gr w)
            ∧ sink w' = sink w
  | None, Some _ => ∃ r w', Run E w = Returned r w'
  | None, None =>
      ∃ w', Run E w = Panicked w'
            ∧ wire w' = wire w ++ [first]
            ∧ Result (gr w') = Result (gr w)
  end.
Proof.
  intros req reply first.
  destruct (reply.2) as [e|] eqn:Herr; [|destruct (Log (gr w)) as [f|] eqn:Hlog].
  - unfold Run, mbind, M_bind, bind, read, update. cbv zeta.
    rewrite listSubsetRepositories_spec. cbv zeta.
    cbn [wire gr with_gr Organization set_ReportDate Log]. fold req. fold reply.
    rewrite Herr. eexists. split; [reflexivity|]. subst first.
    repeat split; reflexivity.
  - destruct (Run_script E w f Hlog) as (r & w' & _ & _ & Hrun & _). eauto.
  - unfold Run, mbind, M_bind, bind, read, update. cbv zeta.
    rewrite listSubsetRepositories_spec. cbv zeta.
    cbn [wire gr with_gr Organization set_ReportDate Log]. fold req. fold reply.
    rewrite Herr, Hlog. eexists. split; [reflexivity|]. subst first.
    repeat split; reflexivity.
Qed.

(** The calls of a run, in order.  When the endpoint answers the listing
    call with the page [p] and the report calls of the first repositories
    [names] of the page without an error: if these are all the
    repositories of the page, [Run] returns a nil error after the listing
    call and one report call for each repository, in page order; if the
    endpoint fails the report call of the next repository [failed], [Run]
    returns the error naming [failed] and that call is the last one made,
    the repositories after it not being asked for.  Every report request
    names the organization and the repository, carries the cutoff of the
    run, formatted, as [date] and as [date2], and asks for 50 items. *)
Theorem Run_calls E w f p names rest reps :
  Log (gr w) = Some f ->
  let organization := Organization (gr w) in
  let since := cutoff E w in
  let listing := listSubsetRepositories_request organization "" in
  let request name := reportRepository_request E organization name since in
  run_repositories E (wire w) listing = (p, None) ->
  page_names p = names ++ rest ->
  fetched E organization since
    (wire w ++ [listing_call organization p None]) names reps ->
  (∀ name,
     q (request name) = repository_report
     ∧ string_var (request name) "organization" = organization
     ∧ string_var (request name) "repo" = name
     ∧ string_var (request name) "date" = Format E since
     ∧ string_var (request name) "date2" = Format E since
     ∧ int_var (request name) "size" = 50)
  ∧ match rest with
    | [] =>
        ∃ w' tr,
          Run E w = Returned None w'
          ∧ wire w' = wire w ++ tr
          ∧ sent <$> tr = listing :: (request <$> page_names p)
    | failed :: _ =>
        ∀ report msg,
          run_report E
            (wire w ++ listing_call organization p None
               :: report_calls E organization since names reps)
            (request failed) = (report, Some msg) ->
          ∃ w' tr,
            Run E w = Returned (Some (report_error failed msg)) w'
            ∧ wire w' = wire w ++ tr
            ∧ sent <$> tr = listing :: (request <$> names ++ [failed])
            ∧ received <$> tr
              = repositoriesReply p None
                :: ((fun r => reportReply r None) <$> reps)
                ++ [reportReply report (Some msg)]
    end.
Proof.
  intros Hlog organization since listing request Hreply Hnames Hf. split.
  - intros name. unfold request, reportRepository_request, string_var, int_var, Var.
    simpl. split; [reflexivity|].
    repeat split;
      repeat (rewrite lookup_insert_ne by discriminate);
      rewrite lookup_insert_eq; reflexivity.
  - assert (Hsent : ∀ ns rs, length ns = length rs ->
              sent <$> report_calls E organization since ns rs = request <$> ns).
    { induction ns as [|n ns IH]; intros [|r rs] Hl; try discriminate; [reflexivity|].
      simpl. f_equal. apply IH. simpl in Hl. congruence. }
    assert (Hrecv : ∀ ns rs, length ns = length rs ->
              received <$> report_calls E organization since ns rs
              = (fun r => reportReply r None) <$> rs).
    { induction ns as [|n ns IH]; intros [|r rs] Hl; try discriminate; [reflexivity|].
      simpl. f_equal. apply IH. simpl in Hl. congruence. }
    assert (Hlen : ∀ ns t rs, fetched E organization since t ns rs ->
              length ns = length rs).
    { induction ns as [|n ns IH]; intros t [|r rs] H; try contradiction; [reflexivity|].
      simpl. f_equal. destruct H as [_ H]. eapply IH, H. }
    pose proof (Run_served E w f p names reps rest Hlog Hreply Hnames Hf) as Hrun.
    cbv zeta in Hrun. destruct rest as [|failed rest].
    + destruct Hrun as (w' & Hrun & Hwire & _).
      exists w', (listing_call organization p None
                  :: report_calls E organization since names reps).
      split; [exact Hrun|]. split; [exact Hwire|].
      rewrite fmap_cons, (Hsent _ _ (Hlen _ _ _ Hf)), Hnames, app_nil_r.
      reflexivity.
    + intros report msg Hfail.
      destruct (Hrun report msg Hfail) as (w' & Hrun' & Hwire & _).
      exists w', (listing_call organization p None
                  :: report_calls E organization since names reps
                  ++ [report_call E organization since failed report (Some msg)]).
      split; [exact Hrun'|]. split; [exact Hwire|].
      rewrite !fmap_cons, !fmap_app, (Hsent _ _ (Hlen _ _ _ Hf)),
        (Hrecv _ _ (Hlen _ _ _ Hf)).
      split; reflexivity.
Qed.

Lemma Run_calls_witness :
  let E := Sim.env 100 Sample.second_fails Sim.now in
  let w := Sample.logging in
  let since := cutoff E w in
  let listing := listSubsetRepositories_request "acme" "" in
  let request name := reportRepository_request E "acme" name since in
  let p := Sim.page "acme" 3 ["a"; "b"; "c"] false in
  let reps := [Sim.report_of Sample.second_fails "a"] in
  (∀ name,
     q (request name) = repository_report
     ∧ string_var (request name) "organization" = "acme"
     ∧ string_var (request name) "repo" = name
     ∧ string_var (request name) "date" = "2018-03-01T00:00:00Z"
     ∧ string_var (request name) "date2" = "2018-03-01T00:00:00Z"
     ∧ int_var (request name) "size" = 50)
  ∧ ∃ w' tr,
      Run E w = Returned (Some (report_error "b" "graphql: server error")) w'
      ∧ wire w' = wire w ++ tr
      ∧ sent <$> tr = listing :: (request <$> ["a"] ++ ["b"])
      ∧ received <$> tr
        = repositoriesReply p None
          :: ((fun r => reportReply r None) <$> reps)
          ++ [reportReply Sim.noReport (Some "graphql: server error")].
Proof.
  intros E w since listing request p reps.
  pose proof (Run_calls E w Sim.println p ["a"] ["b"; "c"] reps eq_refl) as H.
  cbv zeta in H. destruct H as [Hreq Hrun].
  - vm_compute. reflexivity.
  - reflexivity.
  - vm_compute. repeat split.
  - split; [exact Hreq|].
    apply (Hrun Sim.noReport "graphql: server error"). vm_compute. reflexivity.
Defined.

(** The log of a run whose [Log] is set: one line with the remaining
    credits after each call that succeeded, in call order, nothing for a
    call that failed, and, only when [Run] returns a nil error, three
    last lines with the lengths of the three buckets as [Run] leaves
    them. *)
Theorem Run_log E w f :
  Log (gr w) = Some f ->
  ∃ r w' tr,
    Run E w = Returned r w'
    ∧ wire w' = wire w ++ tr
    ∧ sink w' = written f (log_lines tr
                           ++ match r with
                              | None => totals (Result (gr w'))
                              | Some _ => []
                              end) (sink w).
Proof.
  intros Hlog.
  destruct (Run_script E w f Hlog) as (r & w' & tr & n & Hrun & Hwire & _ & Hrest).
  cbv zeta in Hwire, Hrest.
  eexists r, w', (_ :: tr). split; [exact Hrun|]. split; [exact Hwire|].
  destruct (run_repositories E (wire w) _) as [p [e|]]; cbn [fst snd] in *.
  - destruct Hrest as (-> & -> & ->). reflexivity.
  - destruct Hrest as [_ Hr]. destruct r as [e|].
    + rewrite app_nil_r. apply Hr.
    + apply Hr.
Qed.

Lemma Run_log_witness :
  let E := Sim.env 100 Sample.healthy Sim.now in
  let w := Sample.logging in
  sink (world_of w (Run E w))
  = [ "Credits remaining 4999" +:+ nl; "Credits remaining 4999" +:+ nl;
      "Credits remaining 4999" +:+ nl; "Nb merged pr:2" +:+ nl;
      "Nb open pr with activity:1" +:+ nl; "Nb open pr without activity:1" +:+ nl ]
  ∧ ∃ r w' tr,
    Run E w = Returned r w'
    ∧ wire w' = wire w ++ tr
    ∧ sink w' = written Sim.println
                  (log_lines tr
                   ++ match r with
                      | None => totals (Result (gr w'))
                      | Some _ => []
                      end) (sink w).
Proof.
  intros E w. split; [vm_compute; reflexivity|].
  apply (Run_log E w Sim.println). reflexivity.
Defined.

(** [Run] leaves the fields of the report alone except two: it sets
    [ReportDate] to the reading of the clock at its start, also when it
    returns an error, and it appends to [Result]; [Organization],
    [Duration], [Log] and the token are as before. *)
Theorem Run_fields E w r w' :
  Run E w = Returned r w' ->
  ReportDate (gr w') = Now E (wire w)
  ∧ Organization (gr w') = Organization (gr w)
  ∧ Duration (gr w') = Duration (gr w)
  ∧ Log (gr w') = Log (gr w)
  ∧ gitHubToken (gr w') = gitHubToken (gr w)
  ∧ MergedPRs (Result (gr w)) `prefix_of` MergedPRs (Result (gr w'))
  ∧ OpenPRsWithActivity (Result (gr w))
    `prefix_of` OpenPRsWithActivity (Result (gr w'))
  ∧ OpenPRsWithoutActivity (Result (gr w))
    `prefix_of` OpenPRsWithoutActivity (Result (gr w')).
Proof.
  intros Hrun. apply Run_returned in Hrun as (tr & _ & -> & _). simpl.
  repeat split; try reflexivity; apply prefix_app_r; reflexivity.
Qed.

Lemma Run_fields_witness :
  let E := Sim.env 100 Sample.second_fails Sim.now in
  let w := Sample.logging in
  let w' := world_of w (Run E w) in
  ReportDate (gr w') = Now E (wire w)
  ∧ Organization (gr w') = Organization (gr w)
  ∧ Duration (gr w') = Duration (gr w)
  ∧ Log (gr w') = Log (gr w)
  ∧ gitHubToken (gr w') = gitHubToken (gr w)
  ∧ MergedPRs (Result (gr w)) `prefix_of` MergedPRs (Result (gr w'))
  ∧ OpenPRsWithActivity (Result (gr w))
    `prefix_of` OpenPRsWithActivity (Result (gr w'))
  ∧ OpenPRsWithoutActivity (Result (gr w))
    `prefix_of` OpenPRsWithoutActivity (Result (gr w')).
Proof.
  intros E w w'.
  apply (Run_fields E w (Some (report_error "b" "graphql: server error")) w').
  vm_compute. reflexivity.
Defined.

Lemma Repository_classified since tr x :
  x ∈ MergedPRs (classified since tr)
  ∨ x ∈ OpenPRsWithActivity (classified since tr)
  ∨ x ∈ OpenPRsWithoutActivity (classified since tr) ->
  ∃ ex resp, ex ∈ tr ∧ received ex = reportReply resp None
             ∧ Repository x = string_var (sent ex) "repo".
Proof.
  unfold classified; simpl. rewrite !list_elem_of_filter.
  intros [[_ Hx]|[[_ Hx]|[_ Hx]]];
    [apply elem_of_merged_seen in Hx | apply elem_of_open_seen in Hx..];
    destruct Hx as (ex & resp & p & Hex & Hr & _ & ->); eauto.
Qed.

(** Every record a run adds to a bucket carries, as its [Repository], a
    name of the page of repositories the listing call brought back: the
    value the endpoint sent in that field, if any, is overwritten. *)
Theorem Run_repository_names E w f p r w' x :
  Log (gr w) = Some f ->
  run_repositories E (wire w)
    (listSubsetRepositories_request (Organization (gr w)) "") = (p, None) ->
  Result (gr w) = no_result ->
  Run E w = Returned r w' ->
  x ∈ MergedPRs (Result (gr w'))
  ∨ x ∈ OpenPRsWithActivity (Result (gr w'))
  ∨ x ∈ OpenPRsWithoutActivity (Result (gr w')) ->
  Repository x ∈ page_names p.
Proof.
  intros Hlog Hreply Hfresh Hrun Hx.
  destruct (Run_script E w f Hlog) as (r0 & w0 & tr & n & Hrun0 & Hwire & _ & Hrest).
  cbv zeta in Hwire, Hrest. rewrite Hreply in Hwire, Hrest. cbn [fst snd] in *.
  destruct Hrest as [Hsent _].
  rewrite Hrun in Hrun0. injection Hrun0 as <- <-.
  apply Run_returned in Hrun as (tr' & Hwire' & Hgr & _).
  rewrite Hwire in Hwire'. apply app_inv_head in Hwire'. subst tr'.
  rewrite Hgr, Hfresh in Hx. cbn [Result set_Result set_ReportDate] in Hx.
  rewrite join_no_result_l in Hx.
  apply Repository_classified in Hx as (ex & resp & Hex & Hr & ->).
  apply elem_of_cons in Hex as [->|Hex]; [discriminate Hr|].
  assert (Hs : sent ex ∈ sent <$> tr) by (apply list_elem_of_fmap; eauto).
  rewrite Hsent in Hs. apply list_elem_of_fmap in Hs as (name & -> & Hname).
  rewrite string_var_repo.
  apply elem_of_take in Hname as (i & Hi & _). apply list_elem_of_lookup. eauto.
Qed.

Lemma Run_repository_names_witness :
  let E := Sim.env 100 Sample.healthy Sim.now in
  let w := Sample.logging in
  let w' := world_of w (Run E w) in
  let x := set_Repository "c" Sample.merged_in_c in
  Repository x ∈ page_names (Sim.page "acme" 2 ["a"; "c"] false).
Proof.
  intros E w w' x.
  apply (Run_repository_names E w Sim.println
           (Sim.page "acme" 2 ["a"; "c"] false) None w' x).
  - reflexivity.
  - vm_compute. reflexivity.
  - reflexivity.
  - vm_compute. reflexivity.
  - left. vm_compute. apply elem_of_cons. right. apply elem_of_cons. left. reflexivity.
Defined.

Lemma filter_sublist_mono (P Q : PRStruct -> Prop)
    `{!∀ p, Decision (P p)} `{!∀ p, Decision (Q p)} (l : list PRStruct) :
  (∀ p, P p -> Q p) -> filter P l `sublist_of` filter Q l.
Proof.
  intros HPQ. induction l as [|p l IH]; [reflexivity|].
  rewrite !filter_cons.
  destruct (decide (P p)) as [Hp|Hp]; destruct (decide (Q p)) as [Hq|Hq].
  - apply sublist_skip, IH.
  - exfalso. apply Hq, HPQ, Hp.
  - apply sublist_cons, IH.
  - exact IH.
Qed.

(** The merged loop and the window: a pull request the loop keeps for a
    cutoff is kept for every earlier cutoff, in the same order, so a
    longer window never loses a merged pull request; and a pull request
    merged exactly at the cutoff is not kept. *)
Theorem merged_loop_window repoName nodes w since1 since2 :
  since2 <= since1 ->
  ∃ w1 w2,
    extract_merged repoName since1 nodes w = Returned tt w1
    ∧ extract_merged repoName since2 nodes w = Returned tt w2
    ∧ MergedPRs (Result (gr w1)) `sublist_of` MergedPRs (Result (gr w2))
    ∧ (∀ p, parsed (MergedAt p) = since1 ->
            extract_merged repoName since1 [p] w = Returned tt w).
Proof.
  intros Hle. rewrite !extract_merged_spec. eexists _, _.
  split; [reflexivity|]. split; [reflexivity|]. split.
  - simpl. apply sublist_app; [reflexivity|]. apply filter_sublist_mono.
    intros p. unfold merged_since, time.After.
    rewrite !bool_decide_spec. lia.
  - intros p Hp. rewrite extract_merged_spec, fmap_cons, fmap_nil, filter_cons.
    destruct (decide (merged_since since1 (set_Repository repoName p))) as [Hm|_].
    + unfold merged_since, time.After in Hm. simpl in Hm.
      rewrite bool_decide_spec in Hm. lia.
    + rewrite filter_nil. fold no_result. rewrite add_no_result. reflexivity.
Qed.

Lemma merged_loop_window_witness :
  let nodes := [Sample.merged_recently; Sample.merged_long_ago] in
  let w := Sample.logging in
  let day := time.nanosPerDay in
  ∃ w1 w2,
    extract_merged "a" (Sim.now - 7 * day) nodes w = Returned tt w1
    ∧ extract_merged "a" (Sim.now - 60 * day) nodes w = Returned tt w2
    ∧ MergedPRs (Result (gr w1)) `sublist_of` MergedPRs (Result (gr w2))
    ∧ (∀ p, parsed (MergedAt p) = Sim.now - 7 * day ->
            extract_merged "a" (Sim.now - 7 * day) [p] w = Returned tt w).
Proof.
  intros nodes w day.
  apply (merged_loop_window "a" nodes w (Sim.now - 7 * day) (Sim.now - 60 * day)).
  vm_compute. discriminate.
Defined.

(** The empty cursor is the mark of the first page: when the first page
    announces a next page but carries an empty [EndCursor], the next
    request is the request of the first page again, and against an
    endpoint that answers this request the same way each time the
    traversal never returns. *)
Theorem listRepositories_empty_cursor E organization p :
  (∀ t, run_repositories E t (listRepositories_request organization "") = (p, None)) ->
  HasNextPage (page_info p) = true ->
  EndCursor (page_info p) = "" ->
  ∀ fuel w, listRepositories E fuel organization "" w = Exhausted.
Proof.
  intros Hfirst Hmore Hcursor fuel. induction fuel as [|fuel IH]; intros w;
    [reflexivity|].
  rewrite listRepositories_step. cbv zeta. rewrite Hfirst. cbn [fst snd].
  rewrite Hmore, Hcursor, IH. reflexivity.
Qed.

Lemma listRepositories_empty_cursor_witness :
  let p := Sim.page "acme" 0 [] true in
  let E := {| run_repositories := fun _ _ => (p, None);
              run_report := fun _ _ => (Sim.noReport, None);
              Now := fun _ => Sim.now;
              AddDate := Sim.utc_AddDate; Format := Sim.utc_Format |} in
  listRepositories E 1000 "acme" "" Sample.logging = Exhausted.
Proof.
  intros p E. apply (listRepositories_empty_cursor E "acme" p); reflexivity.
Defined.

(** Aggregation is concatenation: when the endpoint answers the listing
    call with the page [p] and the report calls of the repositories of
    the page with [reps], [Run] returns a nil error and each bucket is
    what it held before the run followed by the pull requests of these
    reports that pass the test of the bucket, in the order of the
    repositories on the page and, within a report, in the order of the
    response. *)
Theorem Run_aggregates_in_order E w f p reps :
  Log (gr w) = Some f ->
  run_repositories E (wire w)
    (listSubsetRepositories_request (Organization (gr w)) "") = (p, None) ->
  fetched E (Organization (gr w)) (cutoff E w)
    (wire w ++ [listing_call (Organization (gr w)) p None]) (page_names p) reps ->
  ∃ w',
    Run E w = Returned None w'
    ∧ MergedPRs (Result (gr w'))
      = MergedPRs (Result (gr w))
        ++ filter (fun x => time.After (parsed (MergedAt x)) (cutoff E w))
                  (stamped MergedPR (page_names p) reps)
    ∧ OpenPRsWithActivity (Result (gr w'))
      = OpenPRsWithActivity (Result (gr w))
        ++ filter (fun x => TotalCount (Timeline x) > 0)
                  (stamped OpenPR (page_names p) reps)
    ∧ OpenPRsWithoutActivity (Result (gr w'))
      = OpenPRsWithoutActivity (Result (gr w))
        ++ filter (fun x => ¬ TotalCount (Timeline x) > 0)
                  (stamped OpenPR (page_names p) reps).
Proof.
  intros Hlog Hreply Hf.
  destruct (Run_fetched E w f p reps Hlog Hreply Hf) as (w' & Hrun & _ & Hgr).
  exists w'. split; [exact Hrun|]. rewrite Hgr. repeat split; reflexivity.
Qed.

Lemma Run_aggregates_in_order_witness :
  let E := Sim.env 100 Sample.healthy Sim.now in
  let w := world_of Sample.logging (Run E Sample.logging) in
  let p := Sim.page "acme" 2 ["a"; "c"] false in
  let reps := [Sim.report_of Sample.healthy "a"; Sim.report_of Sample.healthy "c"] in
  ∃ w',
    Run E w = Returned None w'
    ∧ MergedPRs (Result (gr w'))
      = MergedPRs (Result (gr w))
        ++ filter (fun x => time.After (parsed (MergedAt x)) (cutoff E w))
                  (stamped MergedPR (page_names p) reps)
    ∧ OpenPRsWithActivity (Result (gr w'))
      = OpenPRsWithActivity (Result (gr w))
        ++ filter (fun x => TotalCount (Timeline x) > 0)
                  (stamped OpenPR (page_names p) reps)
    ∧ OpenPRsWithoutActivity (Result (gr w'))
      = OpenPRsWithoutActivity (Result (gr w))
        ++ filter (fun x => ¬ TotalCount (Timeline x) > 0)
                  (stamped OpenPR (page_names p) reps).
Proof.
  intros E w p reps. apply (Run_aggregates_in_order E w Sim.println p reps).
  - reflexivity.
  - vm_compute. reflexivity.
  - vm_compute. repeat split.
Defined.
